(** * XBRL tagging tools: a shallow embedding of [src/tagging/tools.py]

    The four tools of the tagging agent ([apply_tags_to_element],
    [create_context_info], [tag_statement_section], [validate_tagged_data])
    are pure functions over JSON-like Python values and over the taxonomy
    dependencies.  Python dictionaries keep their insertion order, and the
    fuzzy tag lookup depends on it, so a dictionary is an association list
    whose keys are pairwise distinct. *)

From Stdlib Require Import String Ascii List ZArith Bool Lia.
From stdpp Require Import base list sorting strings.
Import ListNotations.

(** ** Strings *)

Module Str.

(** [s.lower()].  Python lowercases every cased letter of Unicode, by
    tables that are no part of the sources.  The tools use [lower] as a
    function from strings to strings and nothing more, so it is kept
    abstract: the properties hold for whatever function it is.  The one
    fact about it that is used is that the empty string stays empty. *)
Class Lower : Type := {
  lower : string -> string;
  lower_empty : lower "" = ""
}.

(** [c.lower()] on one ASCII character: [A]..[Z] go to [a]..[z], every
    other character is unchanged. *)
Definition lower_ascii (c : ascii) : ascii :=
  let n := nat_of_ascii c in
  if (65 <=? n)%nat && (n <=? 90)%nat then ascii_of_nat (n + 32) else c.

(** [s.lower()] on a string of ASCII characters, where it is the
    character-wise map. *)
Fixpoint lower_ascii_string (s : string) : string :=
  match s with
  | EmptyString => EmptyString
  | String c s' => String (lower_ascii c) (lower_ascii_string s')
  end.

(** [lower] for the sample inputs, which are all ASCII. *)
Definition ascii_lower : Lower :=
  {| lower := lower_ascii_string; lower_empty := eq_refl |}.

(** [t.startswith(s)] *)
Fixpoint starts_with (s t : string) : bool :=
  match s, t with
  | EmptyString, _ => true
  | String _ _, EmptyString => false
  | String a s', String b t' => Ascii.eqb a b && starts_with s' t'
  end.

(** [s in t] for two strings: [s] occurs in [t] as a contiguous run. *)
Fixpoint str_in (s t : string) : bool :=
  starts_with s t ||
  match t with
  | EmptyString => false
  | String _ t' => str_in s t'
  end.

(** ['sep'.join(parts)] *)
Fixpoint join (sep : string) (parts : list string) : string :=
  match parts with
  | [] => ""
  | [p] => p
  | p :: rest => p +:+ sep +:+ join sep rest
  end.

(** Python truth value of a string. *)
Definition nonempty (s : string) : bool :=
  match s with EmptyString => false | _ => true end.

(** Substring occurrence, as a proposition: [s] is a contiguous run of
    [t]. *)
Definition occurs_in (s t : string) : Prop :=
  exists pre post, t = pre +:+ s +:+ post.

(** [join] around one distinguished part: what precedes it depends on
    the earlier parts only, what follows on the later parts only. *)
Definition join_before (sep : string) (parts : list string) : string :=
  fold_right (fun p acc => p +:+ sep +:+ acc) "" parts.

Definition join_after (sep : string) (parts : list string) : string :=
  match parts with
  | [] => ""
  | _ => sep +:+ join sep parts
  end.

End Str.

(** ** Dictionaries *)

Module Dict.
Section dict.
Context {V : Type}.

(** A [dict] with string keys, in insertion order. *)
Definition t := list (string * V).

(** Keys are unique in every dictionary Python can build. *)
Definition wf (d : t) : Prop := List.NoDup (map fst d).

(** [d.get(k)] *)
Fixpoint get (k : string) (d : t) : option V :=
  match d with
  | [] => None
  | (k', v) :: d' => if String.eqb k k' then Some v else get k d'
  end.

(** [k in d] *)
Definition mem (k : string) (d : t) : bool :=
  match get k d with Some _ => true | None => false end.

(** [d[k] = v]: an existing key keeps its position, a new key goes last. *)
Fixpoint set (k : string) (v : V) (d : t) : t :=
  match d with
  | [] => [(k, v)]
  | (k', v') :: d' =>
      if String.eqb k k' then (k', v) :: d' else (k', v') :: set k v d'
  end.

(** [d.items()] *)
Definition items (d : t) : list (string * V) := d.

Definition keys (d : t) : list string := map fst d.

End dict.
Arguments t : clear implicits.
End Dict.

(** ** Python values *)

(** The JSON-like values that flow through the tools ([Any] in the
    signatures): [None], booleans, integers, strings, lists and
    dictionaries.  Numbers are opaque to the tools, so integers stand for
    all of them. *)
#[warnings="-register-all"] Inductive pyvalue : Type :=
| PNone
| PBool (b : bool)
| PInt (z : Z)
| PStr (s : string)
| PList (l : list pyvalue)
| PDict (d : list (string * pyvalue)).

(** [isinstance(v, (list, dict))] *)
Definition is_list_or_dict (v : pyvalue) : bool :=
  match v with
  | PList _ | PDict _ => true
  | _ => false
  end.

(** [bool(v)]: the truth value used by [if v] and [not v]. *)
Definition truthy (v : pyvalue) : bool :=
  match v with
  | PNone => false
  | PBool b => b
  | PInt z => negb (z =? 0)%Z
  | PStr s => Str.nonempty s
  | PList l => match l with [] => false | _ => true end
  | PDict d => match d with [] => false | _ => true end
  end.

(** ** Taxonomy dependencies *)

(** Modelled from the spec: the tag definition class lives in the
    [dependencies] module, which is not among the sources.  Section 6 of
    the specification gives its serialised fields: element_name, data_type,
    balance_type (credit, debit or none), period_type and description. *)
Record Tag : Type := mkTag {
  element_name : string;
  data_type : string;
  balance_type : option string;
  period_type : string;
  description : string
}.

(** [tag.dict()] *)
Definition tag_dict (tag : Tag) : pyvalue :=
  PDict [ ("element_name", PStr (element_name tag));
          ("data_type", PStr (data_type tag));
          ("balance_type",
             match balance_type tag with Some b => PStr b | None => PNone end);
          ("period_type", PStr (period_type tag));
          ("description", PStr (description tag)) ].

(** Modelled from the spec: [XBRLTaxonomyDependencies] (also in the absent
    [dependencies] module) exposes [field_tags] (field name to ordered tag
    sequence), [statement_tags] (ordered sequence of section-level tags)
    and [mandatory_fields] (field name to boolean). *)
Record XBRLTaxonomyDependencies : Type := mkDeps {
  field_tags : Dict.t (list Tag);
  statement_tags : list Tag;
  mandatory_fields : Dict.t bool
}.

(** ** [apply_tags_to_element] *)

(** The dictionary returned by [apply_tags_to_element]; its five keys are
    fixed, so it is a record. *)
Record TagResult : Type := mkTagResult {
  res_element_name : string;
  res_value : pyvalue;
  res_tags : list pyvalue;
  res_is_mandatory : bool;
  res_messages : list string
}.

(** The test of the fuzzy loop (line 44): case-insensitive containment in
    either direction. *)
Definition similar `{!Str.Lower} (element_name field_name : string) : bool :=
  Str.str_in (Str.lower element_name) (Str.lower field_name)
  || Str.str_in (Str.lower field_name) (Str.lower element_name).

(** The [for ... break] loop of lines 42-47: the first entry of
    [field_tags.items()] that passes the test, if any. *)
Fixpoint find_similar `{!Str.Lower} (element_name : string)
    (entries : list (string * list Tag)) : option (string * list Tag) :=
  match entries with
  | [] => None
  | (field_name, tags) :: rest =>
      if similar element_name field_name then Some (field_name, tags)
      else find_similar element_name rest
  end.

Definition apply_tags_to_element `{!Str.Lower}
    (deps : XBRLTaxonomyDependencies) (element_name : string)
    (value : pyvalue) (statement_type : string) (is_instant : bool)
    : TagResult :=
  (* lines 32-47 *)
  let '(tags, messages) :=
    match Dict.get element_name (field_tags deps) with
    | Some entry =>
        (entry, ["Found exact tag match for " +:+ element_name])
    | None =>
        let messages := ["No exact tag match found for " +:+ element_name] in
        match find_similar element_name (Dict.items (field_tags deps)) with
        | Some (field_name, entry) =>
            (entry, messages ++ ["Using similar tag: " +:+ field_name])
        | None => ([], messages)
        end
    end in
  (* lines 50-54 *)
  let '(is_mandatory, messages) :=
    match Dict.get element_name (mandatory_fields deps) with
    | Some true =>
        (true, messages ++ ["Note: " +:+ element_name +:+ " is a mandatory field"])
    | Some false => (false, messages)
    | None => (false, messages)
    end in
  (* lines 57-65 *)
  {| res_element_name := element_name;
     res_value := value;
     res_tags := map tag_dict tags;
     res_is_mandatory := is_mandatory;
     res_messages := messages |}.

(** ** [create_context_info] *)

(** [datetime.date]: a calendar date; Python only builds dates with
    [1 <= year <= 9999], [1 <= month <= 12] and a day of that month. *)
Record date : Type := mkDate { year : nat; month : nat; day : nat }.

Definition digit (n : nat) : ascii := ascii_of_nat (48 + n mod 10).

(** [%m] and [%d]: two decimal digits. *)
Definition two_digits (n : nat) : string :=
  String (digit (n / 10)) (String (digit n) "").

(** Four decimal digits, zero-padded: the year of [isoformat], and of
    [%Y] from the year 1000 on. *)
Definition four_digits (n : nat) : string :=
  String (digit (n / 1000)) (String (digit (n / 100))
    (String (digit (n / 10)) (String (digit n) ""))).

(** [%Y]: [date.strftime] leaves the year to the C library, which prints
    it as a plain decimal number; glibc does not pad it, so a year before
    1000 comes out with fewer than four digits ([999] as "999", [1] as
    "1").  From 1000 to 9999, the last year of a [date], it has its four
    digits on every platform. *)
Definition strftime_Y (y : nat) : string :=
  if (y <? 10)%nat then String (digit y) ""
  else if (y <? 100)%nat then two_digits y
  else if (y <? 1000)%nat then String (digit (y / 100)) (two_digits y)
  else four_digits y.

(** [d.strftime('%Y%m%d')] *)
Definition strftime_Ymd (d : date) : string :=
  strftime_Y (year d) +:+ two_digits (month d) +:+ two_digits (day d).

(** [d.isoformat()] *)
Definition isoformat (d : date) : string :=
  four_digits (year d) +:+ "-" +:+ two_digits (month d) +:+ "-"
  +:+ two_digits (day d).

(** Order of the [(name, value)] tuples that [sorted] compares: Python
    strings are ordered lexicographically by code point ([String.le]), and
    tuples by name first, then by value between equal names. *)
Definition item_le (a b : string * string) : Prop :=
  String.le (fst a) (fst b) /\ (fst a = fst b -> String.le (snd a) (snd b)).

#[global] Instance item_le_dec : RelDecision item_le.
Proof. intros a b. unfold item_le. apply _. Defined.

(** [sorted(dimensions.items())] *)
Definition sorted_items (dimensions : Dict.t string) : list (string * string) :=
  merge_sort item_le (Dict.items dimensions).

(** Line 102: [f"{dim_name}-{dim_value}"]. *)
Definition dim_part (item : string * string) : string :=
  let '(dim_name, dim_value) := item in dim_name +:+ "-" +:+ dim_value.

(** Lines 93-94. *)
Definition period_part (period_end : date) (period_start : option date)
    : string :=
  match period_start with
  | None => "i" +:+ strftime_Ymd period_end
  | Some start => "d" +:+ strftime_Ymd start +:+ "to" +:+ strftime_Ymd period_end
  end.

(** Lines 93-104: the identifier.  [if dimensions:] is false for [None]
    and for the empty dictionary. *)
Definition context_id (period_end : date) (period_start : option date)
    (is_consolidated : bool) (dimensions : option (Dict.t string)) : string :=
  let context_id :=
    "ctx_" +:+ period_part period_end period_start +:+ "_"
    +:+ (if is_consolidated then "c" else "s") in
  match dimensions with
  | Some ((_ :: _) as dims) =>
      let dim_parts := map dim_part (sorted_items dims) in
      match dim_parts with
      | [] => context_id
      | _ => context_id +:+ "_" +:+ Str.join "_" dim_parts
      end
  | _ => context_id
  end.

Definition create_context_info (deps : XBRLTaxonomyDependencies)
    (entity_name entity_identifier : string) (period_end : date)
    (period_start : option date) (is_consolidated : bool)
    (dimensions : option (Dict.t string)) : Dict.t pyvalue :=
  let context_info :=
    [ ("id", PStr (context_id period_end period_start is_consolidated
                     dimensions));
      ("entity", PDict [ ("name", PStr entity_name);
                         ("identifier", PStr entity_identifier) ]);
      ("period",
         PDict (("end_date", PStr (isoformat period_end)) ::
                match period_start with
                | Some start => [("start_date", PStr (isoformat start))]
                | None => []
                end));
      ("is_consolidated", PBool is_consolidated) ] in
  match dimensions with
  | Some ((_ :: _) as dims) =>
      Dict.set "dimensions"
        (PDict (map (fun '(k, v) => (k, PStr v)) dims)) context_info
  | _ => context_info
  end.

(** ** [tag_statement_section] *)

(** Lines 147-149: the section-level tags whose element name contains the
    section name, case-insensitively. *)
Definition section_meta_tags `{!Str.Lower}
    (deps : XBRLTaxonomyDependencies) (section_name : string)
    : list pyvalue :=
  map tag_dict
    (List.filter (fun tag =>
               Str.str_in (Str.lower section_name)
                          (Str.lower (element_name tag)))
            (statement_tags deps)).

(** Lines 158-165: the [{value, tags}] element of one scalar field; only
    an exact key of [field_tags] gives tags. *)
Definition tagged_element (deps : XBRLTaxonomyDependencies)
    (element_name : string) (element_value : pyvalue) : pyvalue :=
  let tags :=
    match Dict.get element_name (field_tags deps) with
    | Some entry => entry
    | None => []
    end in
  PDict [ ("value", element_value); ("tags", PList (map tag_dict tags)) ].

(** One round of the loop of lines 152-165. *)
Definition tag_field (deps : XBRLTaxonomyDependencies)
    (tagged_section : Dict.t pyvalue) (entry : string * pyvalue)
    : Dict.t pyvalue :=
  let '(element_name, element_value) := entry in
  if is_list_or_dict element_value then tagged_section
  else Dict.set element_name (tagged_element deps element_name element_value)
         tagged_section.

Definition tag_statement_section `{!Str.Lower}
    (deps : XBRLTaxonomyDependencies) (section_name : string)
    (section_data : Dict.t pyvalue) : Dict.t pyvalue :=
  let tagged_section := [("meta_tags", PList (section_meta_tags deps section_name))] in
  fold_left (tag_field deps) (Dict.items section_data) tagged_section.

(** ** [validate_tagged_data] *)

Definition missing_mandatory_issue (field_name : string) : Dict.t string :=
  [ ("type", "missing_mandatory_field");
    ("field", field_name);
    ("message",
       "Mandatory field '" +:+ field_name
       +:+ "' is missing from the tagged data") ].

Definition missing_tags_issue (section_name field_name : string)
    : Dict.t string :=
  [ ("type", "missing_tags");
    ("section", section_name);
    ("field", field_name);
    ("message",
       "No tags applied to field '" +:+ field_name +:+ "' in section '"
       +:+ section_name +:+ "'") ].

(** [isinstance(section_data, dict) and field_name in section_data] *)
Definition section_has_field (field_name : string) (section_data : pyvalue)
    : bool :=
  match section_data with
  | PDict d => Dict.mem field_name d
  | _ => false
  end.

(** The inner loop of lines 192-195. *)
Definition field_found (field_name : string) (tagged_data : Dict.t pyvalue)
    : bool :=
  existsb (fun '(_, section_data) => section_has_field field_name section_data)
          (Dict.items tagged_data).

(** One round of the loop of lines 187-202. *)
Definition check_mandatory (tagged_data : Dict.t pyvalue)
    (issues : list (Dict.t string)) (entry : string * bool)
    : list (Dict.t string) :=
  let '(field_name, is_mandatory) := entry in
  if is_mandatory then
    if field_found field_name tagged_data then issues
    else issues ++ [missing_mandatory_issue field_name]
  else issues.

(** The test of line 208. *)
Definition lacks_tags (field_data : pyvalue) : bool :=
  match field_data with
  | PDict e =>
      match Dict.get "tags" e with
      | Some tags => negb (truthy tags)
      | None => false
      end
  | _ => false
  end.

(** One round of the inner loop of lines 207-214. *)
Definition check_field (section_name : string) (issues : list (Dict.t string))
    (entry : string * pyvalue) : list (Dict.t string) :=
  let '(field_name, field_data) := entry in
  if lacks_tags field_data
  then issues ++ [missing_tags_issue section_name field_name]
  else issues.

(** One round of the outer loop of lines 205-214. *)
Definition check_section (issues : list (Dict.t string))
    (entry : string * pyvalue) : list (Dict.t string) :=
  let '(section_name, section_data) := entry in
  match section_data with
  | PDict d => fold_left (check_field section_name) (Dict.items d) issues
  | _ => issues
  end.

Definition validate_tagged_data (deps : XBRLTaxonomyDependencies)
    (tagged_data : Dict.t pyvalue) : list (Dict.t string) :=
  let issues := [] in
  let issues :=
    fold_left (check_mandatory tagged_data)
              (Dict.items (mandatory_fields deps)) issues in
  fold_left check_section (Dict.items tagged_data) issues.

(** ** Vocabulary of the properties *)

(** Case-insensitive containment in either direction, as a proposition. *)
Definition fuzzy_match `{!Str.Lower} (element_name field_name : string)
    : Prop :=
  Str.occurs_in (Str.lower element_name) (Str.lower field_name)
  \/ Str.occurs_in (Str.lower field_name) (Str.lower element_name).

(** A date from the year 1000 on, with the fields of a [datetime.date]:
    the dates whose [%Y%m%d] is eight digits on every platform. *)
Definition date_in_range (d : date) : Prop :=
  1000 <= year d /\ (Z.of_nat (year d) <= 9999)%Z
  /\ month d <= 12 /\ day d <= 31.

(** The value of a decimal digit. *)
Definition digit_value (c : ascii) : option nat :=
  let n := nat_of_ascii c in
  if (48 <=? n)%nat && (n <=? 57)%nat then Some (n - 48) else None.

(** The number a string of decimal digits denotes, read from the left;
    [None] when some character is no digit. *)
Fixpoint decimal_value_from (acc : nat) (s : string) : option nat :=
  match s with
  | EmptyString => Some acc
  | String c s' =>
      match digit_value c with
      | Some d => decimal_value_from (10 * acc + d) s'
      | None => None
      end
  end.

Definition decimal_value (s : string) : option nat := decimal_value_from 0 s.

(** [s] is the date [d] written as YYYYMMDD: four digits that denote the
    year, two that denote the month, two that denote the day. *)
Definition is_YYYYMMDD (d : date) (s : string) : Prop :=
  exists yyyy mm dd,
    s = yyyy +:+ mm +:+ dd /\
    String.length yyyy = 4 /\ String.length mm = 2 /\ String.length dd = 2 /\
    decimal_value yyyy = Some (year d) /\
    decimal_value mm = Some (month d) /\
    decimal_value dd = Some (day d).

(** Ascending order of dimension names. *)
Definition name_le (a b : string * string) : Prop :=
  String.le (fst a) (fst b).

(** The dimension item [item] with the value of dimension [k] replaced
    by [v']. *)
Definition with_value (k v' : string) (item : string * string)
    : string * string :=
  if String.eqb (fst item) k then (fst item, v') else item.

(** The identifier stored in a context descriptor. *)
Definition descriptor_id (context_info : Dict.t pyvalue) : option pyvalue :=
  Dict.get "id" context_info.

(** The tag list attached to a field of a tagged section. *)
Definition element_tags (tagged_section : Dict.t pyvalue)
    (field_name : string) : option (list pyvalue) :=
  match Dict.get field_name tagged_section with
  | Some (PDict e) =>
      match Dict.get "tags" e with
      | Some (PList tags) => Some tags
      | _ => None
      end
  | _ => None
  end.

(** A field name that is a key of no section of the document. *)
Definition absent_from_every_section (field_name : string)
    (tagged_data : Dict.t pyvalue) : Prop :=
  forall section_name d,
    In (section_name, PDict d) tagged_data -> ~ In field_name (Dict.keys d).

(** A field whose element carries an empty tag list. *)
Definition has_empty_tag_list (field_data : pyvalue) : Prop :=
  exists e, field_data = PDict e /\ Dict.get "tags" e = Some (PList []).

(** The data model's tagged element: what sits under ["tags"] is a list. *)
Definition tags_is_list (field_data : pyvalue) : Prop :=
  forall e tags,
    field_data = PDict e -> Dict.get "tags" e = Some tags ->
    exists l, tags = PList l.

(** Every field of every section of [sections] is a tagged element with a
    non-empty tag list, or no tagged element at all. *)
Definition fields_tagged (fields : list (string * pyvalue)) : Prop :=
  forall field_name field_data,
    In (field_name, field_data) fields ->
    tags_is_list field_data /\ ~ has_empty_tag_list field_data.

Definition sections_tagged (sections : list (string * pyvalue)) : Prop :=
  forall section_name d,
    In (section_name, PDict d) sections -> fields_tagged d.

Definition issue_has_type (type : string) (issue : Dict.t string) : bool :=
  match Dict.get "type" issue with
  | Some t => String.eqb t type
  | None => false
  end.

(** The issues each loop of [validate_tagged_data] adds, in order. *)
Definition mandatory_issues (tagged_data : Dict.t pyvalue)
    (entries : list (string * bool)) : list (Dict.t string) :=
  flat_map (fun '(field_name, is_mandatory) =>
              if is_mandatory && negb (field_found field_name tagged_data)
              then [missing_mandatory_issue field_name] else [])
           entries.

Definition field_issues (section_name : string)
    (fields : list (string * pyvalue)) : list (Dict.t string) :=
  flat_map (fun '(field_name, field_data) =>
              if lacks_tags field_data
              then [missing_tags_issue section_name field_name] else [])
           fields.

Definition section_issues (sections : list (string * pyvalue))
    : list (Dict.t string) :=
  flat_map (fun '(section_name, section_data) =>
              match section_data with
              | PDict d => field_issues section_name d
              | _ => []
              end)
           sections.

(** ** Sample inputs *)

Module Sample.

Definition end_2023 : date := mkDate 2023 12 31.
Definition start_2023 : date := mkDate 2023 1 1.

Definition revenue : Tag :=
  mkTag "Revenue" "monetary" (Some "credit") "duration" "Revenue".

Definition total_revenue : Tag :=
  mkTag "TotalRevenue" "monetary" (Some "credit") "duration" "Total revenue".

Definition income_abstract : Tag :=
  mkTag "IncomeStatementAbstract" "string" None "duration" "Income statement".

(** A registry whose only field entry is ["Revenue"]. *)
Definition registry : XBRLTaxonomyDependencies :=
  mkDeps [("Revenue", [revenue])] [income_abstract]
         [("Revenue", true); ("Notes", false)].

(** A registry where ["Revenue"] comes after a fuzzy-compatible entry. *)
Definition registry2 : XBRLTaxonomyDependencies :=
  mkDeps [("TotalRevenue", [total_revenue]); ("Revenue", [revenue])]
         [income_abstract]
         [("Revenue", true)].

(** A tagged document: "Revenue" carries a tag, "Goodwill" carries an
    empty tag list. *)
Definition document : Dict.t pyvalue :=
  [ ("incomeStatement",
       PDict [ ("meta_tags", PList [tag_dict income_abstract]);
               ("Revenue",
                  PDict [ ("value", PInt 1200);
                          ("tags", PList [tag_dict revenue]) ]) ]);
    ("balanceSheet",
       PDict [ ("meta_tags", PList []);
               ("Goodwill",
                  PDict [ ("value", PInt 7); ("tags", PList []) ]) ]) ].

(** A document in which no section has the mandatory "Revenue". *)
Definition document_without_revenue : Dict.t pyvalue :=
  [ ("balanceSheet",
       PDict [ ("meta_tags", PList []);
               ("Goodwill",
                  PDict [ ("value", PInt 7); ("tags", PList []) ]) ]) ].

End Sample.

(** ** Vocabulary of the further properties *)

(** The names of the scalar fields of a section, in insertion order. *)
Definition scalar_field_names (section_data : Dict.t pyvalue) : list string :=
  map fst
    (List.filter (fun entry => negb (is_list_or_dict (snd entry)))
       (Dict.items section_data)).

(** The section has a scalar entry of that name. *)
Definition has_scalar_field (field_name : string)
    (section_data : Dict.t pyvalue) : Prop :=
  exists v,
    In (field_name, v) (Dict.items section_data)
    /\ is_list_or_dict v = false.

(** A field the validator counts as having no tags: a dictionary whose
    "tags" entry is false as a Python truth value. *)
Definition untagged (field_data : pyvalue) : Prop :=
  exists e tags,
    field_data = PDict e /\ Dict.get "tags" e = Some tags
    /\ truthy tags = false.

(** The document a caller assembles from the sections it has tagged: each
    section name with the output of [tag_statement_section] for it. *)
Definition tag_document `{!Str.Lower} (deps : XBRLTaxonomyDependencies)
    (sections : list (string * Dict.t pyvalue)) : Dict.t pyvalue :=
  map (fun section =>
         (fst section,
          PDict (tag_statement_section deps (fst section) (snd section))))
      sections.

(** The field names flagged [True] in [mandatory_fields], in order. *)
Definition mandatory_names (deps : XBRLTaxonomyDependencies) : list string :=
  map fst (List.filter snd (Dict.items (mandatory_fields deps))).

(** * Properties *)

(** ** Strings *)

Module StrFacts.
Import Str.

Lemma append_nil_l (s : string) : "" +:+ s = s.
Proof. reflexivity. Qed.

Lemma append_cons (c : ascii) (s t : string) :
  String c s +:+ t = String c (s +:+ t).
Proof. reflexivity. Qed.

Lemma append_nil_r (s : string) : s +:+ "" = s.
Proof.
  induction s as [|c s IH]; [reflexivity|].
  rewrite append_cons, IH. reflexivity.
Qed.

Lemma append_assoc (s t u : string) : (s +:+ t) +:+ u = s +:+ t +:+ u.
Proof.
  induction s as [|c s IH]; [reflexivity|].
  rewrite !append_cons, IH. reflexivity.
Qed.

Lemma length_append (s t : string) :
  String.length (s +:+ t) = String.length s + String.length t.
Proof.
  induction s as [|c s IH]; [reflexivity|].
  rewrite append_cons. simpl. rewrite IH. reflexivity.
Qed.

(** Appending the same tail to two strings keeps them apart. *)
Lemma append_inv_tail (s t r : string) : s +:+ r = t +:+ r -> s = t.
Proof.
  revert t. induction s as [|a s IH]; intros [|b t] H.
  - reflexivity.
  - apply (f_equal String.length) in H.
    rewrite append_nil_l, append_cons in H. simpl in H.
    rewrite length_append in H. lia.
  - apply (f_equal String.length) in H.
    rewrite append_nil_l, append_cons in H. simpl in H.
    rewrite length_append in H. lia.
  - rewrite !append_cons in H. injection H as -> H.
    f_equal. apply IH, H.
Qed.

Lemma append_inv_head (s t r : string) : r +:+ s = r +:+ t -> s = t.
Proof.
  induction r as [|c r IH]; [trivial|].
  rewrite !append_cons. intros H. injection H as H. auto.
Qed.

Lemma starts_with_spec (s t : string) :
  starts_with s t = true <-> exists post, t = s +:+ post.
Proof.
  revert t. induction s as [|a s IH]; intros t.
  - split; [intros _; exists t; reflexivity | reflexivity].
  - destruct t as [|b t]; simpl.
    + split; [discriminate | intros [post H]; discriminate H].
    + rewrite andb_true_iff, IH. split.
      * intros [Hab [post ->]]. apply Ascii.eqb_eq in Hab as ->.
        exists post. reflexivity.
      * intros [post H]. rewrite append_cons in H.
        injection H as -> ->. split; [apply Ascii.eqb_refl | eauto].
Qed.

Lemma str_in_unfold (s t : string) :
  str_in s t =
  starts_with s t
  || match t with EmptyString => false | String _ t' => str_in s t' end.
Proof. destruct t; reflexivity. Qed.

Lemma str_in_spec (s t : string) :
  str_in s t = true <-> occurs_in s t.
Proof.
  unfold occurs_in. split.
  - induction t as [|c t IH]; rewrite str_in_unfold, orb_true_iff.
    + intros [H | H]; [|discriminate].
      apply starts_with_spec in H as [post ->]. exists "", post. reflexivity.
    + intros [H | H].
      * apply starts_with_spec in H as [post ->]. exists "", post.
        reflexivity.
      * destruct (IH H) as (pre & post & ->).
        exists (String c pre), post. reflexivity.
  - intros (pre & post & ->).
    induction pre as [|c pre IH]; rewrite str_in_unfold, orb_true_iff.
    + left. apply starts_with_spec. exists post. reflexivity.
    + right. rewrite append_cons. exact IH.
Qed.

Lemma join_cons (sep p : string) (parts : list string) :
  join sep (p :: parts) = p +:+ join_after sep parts.
Proof.
  destruct parts; simpl; [rewrite append_nil_r|]; reflexivity.
Qed.

Lemma join_split (sep x : string) (before after : list string) :
  join sep (before ++ x :: after)
  = join_before sep before +:+ x +:+ join_after sep after.
Proof.
  induction before as [|p before IH].
  - apply join_cons.
  - change ((p :: before) ++ x :: after) with (p :: (before ++ x :: after)).
    rewrite join_cons. unfold join_after at 1.
    destruct (before ++ x :: after) eqn:E.
    + destruct before; discriminate E.
    + rewrite IH. simpl. rewrite !append_assoc. reflexivity.
Qed.

End StrFacts.

(** ** Dictionaries *)

Module DictFacts.
Section dict_facts.
Context {V : Type}.
Implicit Types (d : Dict.t V) (k : string) (v : V).

Lemma get_Some_In k v d : Dict.get k d = Some v -> In (k, v) d.
Proof.
  induction d as [|[k' v'] d IH]; simpl; [discriminate|].
  destruct (String.eqb_spec k k') as [->|Hne].
  - intros [= ->]. left; reflexivity.
  - intros H. right. apply IH, H.
Qed.

Lemma get_None_iff k d : Dict.get k d = None <-> ~ In k (Dict.keys d).
Proof.
  induction d as [|[k' v'] d IH]; simpl.
  - split; [intros _ [] | reflexivity].
  - destruct (String.eqb_spec k k') as [->|Hne].
    + split; [discriminate | intros H; exfalso; apply H; left; reflexivity].
    + rewrite IH. split.
      * intros H [Heq | Hin]; [congruence | exact (H Hin)].
      * intros H Hin. apply H. right; exact Hin.
Qed.

Lemma mem_iff k d : Dict.mem k d = true <-> In k (Dict.keys d).
Proof.
  unfold Dict.mem. destruct (Dict.get k d) eqn:E.
  - split; [intros _ | reflexivity].
    apply get_Some_In in E. apply (in_map fst) in E. exact E.
  - apply get_None_iff in E. split; [discriminate | contradiction].
Qed.

Lemma mem_false_iff k d : Dict.mem k d = false <-> ~ In k (Dict.keys d).
Proof.
  rewrite <- mem_iff. destruct (Dict.mem k d); split; congruence.
Qed.

Lemma In_get k v d : Dict.wf d -> In (k, v) d -> Dict.get k d = Some v.
Proof.
  unfold Dict.wf. induction d as [|[k' v'] d IH]; simpl; [intros _ []|].
  intros Hnd [Heq | Hin].
  - injection Heq as -> ->. rewrite String.eqb_refl. reflexivity.
  - apply NoDup_cons_iff in Hnd as [Hk' Hnd].
    destruct (String.eqb_spec k k') as [->|Hne].
    + exfalso. apply Hk'. apply (in_map fst) in Hin. exact Hin.
    + apply IH; assumption.
Qed.

Lemma get_set_eq k v d : Dict.get k (Dict.set k v d) = Some v.
Proof.
  induction d as [|[k' v'] d IH]; simpl.
  - rewrite String.eqb_refl. reflexivity.
  - destruct (String.eqb_spec k k') as [->|Hne]; simpl.
    + rewrite String.eqb_refl. reflexivity.
    + destruct (String.eqb_spec k k'); [contradiction | exact IH].
Qed.

Lemma get_set_ne k k' v d :
  k <> k' -> Dict.get k' (Dict.set k v d) = Dict.get k' d.
Proof.
  intros Hne. induction d as [|[k0 v0] d IH]; simpl.
  - destruct (String.eqb_spec k' k); [congruence | reflexivity].
  - destruct (String.eqb_spec k k0) as [->|Hk]; simpl.
    + destruct (String.eqb_spec k' k0); [congruence | reflexivity].
    + destruct (String.eqb_spec k' k0); [reflexivity | exact IH].
Qed.

Lemma In_set k v k' x d :
  In (k', x) (Dict.set k v d) -> (k' = k /\ x = v) \/ In (k', x) d.
Proof.
  induction d as [|[k0 v0] d IH]; simpl.
  - intros [[= <- <-] | []]. left; split; reflexivity.
  - destruct (String.eqb_spec k k0) as [->|Hk]; simpl.
    + intros [[= <- <-] | H]; [left; split; reflexivity | right; right; exact H].
    + intros [H | H]; [right; left; exact H|].
      destruct (IH H) as [? | ?]; [left; assumption | right; right; assumption].
Qed.

Lemma keys_set k v k' d :
  In k' (Dict.keys (Dict.set k v d)) <-> k' = k \/ In k' (Dict.keys d).
Proof.
  induction d as [|[k0 v0] d IH]; simpl.
  - intuition congruence.
  - destruct (String.eqb_spec k k0) as [->|Hk]; simpl.
    + intuition congruence.
    + rewrite IH. intuition congruence.
Qed.

Lemma wf_set k v d : Dict.wf d -> Dict.wf (Dict.set k v d).
Proof.
  unfold Dict.wf. induction d as [|[k0 v0] d IH]; simpl; intros Hnd.
  - constructor; [intros [] | constructor].
  - apply NoDup_cons_iff in Hnd as [Hk0 Hnd].
    destruct (String.eqb_spec k k0) as [->|Hk]; simpl.
    + constructor; assumption.
    + constructor; [|apply IH, Hnd].
      intros Hin. apply (keys_set k v k0 d) in Hin as [? | ?];
        [congruence | contradiction].
Qed.

(** Items of a well-formed dictionary are pairwise distinct. *)
Lemma wf_items_NoDup d : Dict.wf d -> List.NoDup (Dict.items d).
Proof. apply NoDup_map_inv. Qed.

End dict_facts.
End DictFacts.

(** ** Sorting the dimensions *)

#[global] Instance item_le_total : Total item_le.
Proof.
  intros [a1 a2] [b1 b2]. unfold item_le. simpl.
  destruct (decide (a1 = b1)) as [->|Hne].
  - destruct (total String.le a2 b2); [left | right]; split; auto; reflexivity.
  - destruct (total String.le a1 b1); [left | right]; split; auto; congruence.
Qed.

#[global] Instance item_le_trans : Transitive item_le.
Proof.
  intros [a1 a2] [b1 b2] [c1 c2]. unfold item_le. simpl.
  intros [Hab Hab2] [Hbc Hbc2]. split; [etrans; eassumption|].
  intros ->.
  assert (c1 = b1) as -> by (apply (anti_symm String.le); assumption).
  trans b2; auto.
Qed.

#[global] Instance item_le_antisym : AntiSymm (=) item_le.
Proof.
  intros [a1 a2] [b1 b2]. unfold item_le. simpl.
  intros [Hab Hab2] [Hba Hba2].
  assert (a1 = b1) as -> by (apply (anti_symm String.le); assumption).
  f_equal. apply (anti_symm String.le); auto.
Qed.

Lemma sorted_items_Sorted (d : Dict.t string) :
  Sorted item_le (sorted_items d).
Proof. apply (Sorted_merge_sort item_le). Qed.

Lemma sorted_items_Permutation (d : Dict.t string) :
  sorted_items d ≡ₚ Dict.items d.
Proof. apply merge_sort_Permutation. Qed.

(** Whatever algorithm [sorted] runs, its result is this list: there is
    one sorted arrangement of the items. *)
Lemma sorted_items_unique (d : Dict.t string) (l : list (string * string)) :
  Sorted item_le l -> l ≡ₚ Dict.items d -> l = sorted_items d.
Proof.
  intros Hs Hp. apply (Sorted_unique item_le); [exact Hs | |].
  - apply sorted_items_Sorted.
  - rewrite Hp. symmetry. apply sorted_items_Permutation.
Qed.

Lemma sorted_items_perm_eq (d1 d2 : Dict.t string) :
  d1 ≡ₚ d2 -> sorted_items d1 = sorted_items d2.
Proof.
  intros Hp. apply sorted_items_unique; [apply sorted_items_Sorted|].
  rewrite sorted_items_Permutation. exact Hp.
Qed.

Lemma Sorted_name_le (l : list (string * string)) :
  Sorted item_le l -> Sorted name_le l.
Proof.
  induction 1 as [|x l Hl IH Hhd]; constructor; [exact IH|].
  destruct Hhd as [|y l' [Hxy _]]; constructor. exact Hxy.
Qed.

Lemma sorted_items_nonempty (x : string * string) (d : Dict.t string) :
  sorted_items (x :: d) <> [].
Proof.
  intros E. pose proof (sorted_items_Permutation (x :: d)) as Hp.
  rewrite E in Hp. apply Permutation_nil_l in Hp. discriminate Hp.
Qed.

(** ** The context identifier *)

Lemma create_context_info_id deps entity_name entity_identifier period_end
    period_start is_consolidated dimensions :
  descriptor_id (create_context_info deps entity_name entity_identifier
                   period_end period_start is_consolidated dimensions)
  = Some (PStr (context_id period_end period_start is_consolidated
                  dimensions)).
Proof.
  unfold create_context_info, descriptor_id.
  destruct dimensions as [[|x d]|]; reflexivity.
Qed.

Lemma context_id_dims period_end period_start is_consolidated x d :
  context_id period_end period_start is_consolidated (Some (x :: d))
  = context_id period_end period_start is_consolidated None
    +:+ "_" +:+ Str.join "_" (map dim_part (sorted_items (x :: d))).
Proof.
  unfold context_id.
  destruct (sorted_items (x :: d)) eqn:E.
  - exfalso. exact (sorted_items_nonempty _ _ E).
  - reflexivity.
Qed.

(** From the year 1000 on, [%Y] is the four digits. *)
Lemma strftime_Y_four (y : nat) : 1000 <= y -> strftime_Y y = four_digits y.
Proof.
  intros Hy. unfold strftime_Y.
  destruct (Nat.ltb_spec y 10); [lia|].
  destruct (Nat.ltb_spec y 100); [lia|].
  destruct (Nat.ltb_spec y 1000); [lia | reflexivity].
Qed.

Lemma digit_value_digit (n : nat) : digit_value (digit n) = Some (n mod 10).
Proof.
  unfold digit_value, digit.
  pose proof (Nat.mod_upper_bound n 10).
  rewrite nat_ascii_embedding by lia.
  destruct (Nat.leb_spec 48 (48 + n mod 10)); [|lia].
  destruct (Nat.leb_spec (48 + n mod 10) 57); [|lia].
  simpl. f_equal. lia.
Qed.

Lemma four_digits_value (y : nat) :
  (Z.of_nat y <= 9999)%Z -> decimal_value (four_digits y) = Some y.
Proof.
  intros Hy. unfold decimal_value, four_digits.
  do 4 (cbn [decimal_value_from]; rewrite digit_value_digit).
  cbn [decimal_value_from]. f_equal. apply Nat2Z.inj.
  repeat first [ rewrite Nat2Z.inj_add | rewrite Nat2Z.inj_mul
               | rewrite Nat2Z.inj_mod | rewrite Nat2Z.inj_div ].
  change (Z.of_nat 0) with 0%Z.
  change (Z.of_nat 10) with 10%Z.
  change (Z.of_nat 100) with 100%Z.
  change (Z.of_nat 1000) with 1000%Z.
  pose proof (Nat2Z.is_nonneg y) as Hy0.
  generalize dependent (Z.of_nat y). intros z Hz Hz0.
  Z.to_euclidean_division_equations. lia.
Qed.

Lemma two_digits_value (m : nat) :
  m <= 31 -> decimal_value (two_digits m) = Some m.
Proof.
  intros Hm. unfold decimal_value, two_digits.
  do 2 (cbn [decimal_value_from]; rewrite digit_value_digit).
  cbn [decimal_value_from]. f_equal.
  pose proof (Nat.div_mod_eq m 10).
  assert (m / 10 < 10) by (apply Nat.Div0.div_lt_upper_bound; lia).
  rewrite (Nat.mod_small (m / 10)) by lia. lia.
Qed.

(** For a date from the year 1000 on, the formatted date is YYYYMMDD. *)
Lemma strftime_Ymd_is_YYYYMMDD (d : date) :
  date_in_range d -> is_YYYYMMDD d (strftime_Ymd d).
Proof.
  intros (Hy & Hy' & Hm & Hd).
  exists (four_digits (year d)), (two_digits (month d)),
         (two_digits (day d)).
  split_and!; try reflexivity.
  - unfold strftime_Ymd. rewrite strftime_Y_four by exact Hy. reflexivity.
  - apply four_digits_value, Hy'.
  - apply two_digits_value. lia.
  - apply two_digits_value, Hd.
Qed.



(** C3, as the code has it.  The identifier does not encode the entity:
    calls that differ only in [entity_name] or [entity_identifier] get the
    same identifier.  The entity is carried by the "entity" entry of the
    descriptor alone. *)
Theorem context_id_ignores_entity :
  forall deps name1 identifier1 name2 identifier2 period_end period_start
         is_consolidated dimensions,
    descriptor_id (create_context_info deps name1 identifier1 period_end
                     period_start is_consolidated dimensions)
    = descriptor_id (create_context_info deps name2 identifier2 period_end
                       period_start is_consolidated dimensions)
    /\ Dict.get "entity"
         (create_context_info deps name1 identifier1 period_end period_start
            is_consolidated dimensions)
       = Some (PDict [("name", PStr name1); ("identifier", PStr identifier1)]).
Proof.
  intros. split.
  - rewrite !create_context_info_id. reflexivity.
  - unfold create_context_info. destruct dimensions as [[|x d]|]; reflexivity.
Qed.

(** C3 fails as stated: two contexts of distinct entities (different name
    and different identifier), equal in every other argument, collide on
    "ctx_i20231231_s". *)
Lemma context_id_entity_collision :
  "Acme Pte Ltd" <> "Globex Pte Ltd" /\ "201912345A" <> "202054321B" /\
  descriptor_id (create_context_info Sample.registry "Acme Pte Ltd"
                   "201912345A" Sample.end_2023 None false None)
  = Some (PStr "ctx_i20231231_s") /\
  descriptor_id (create_context_info Sample.registry "Globex Pte Ltd"
                   "202054321B" Sample.end_2023 None false None)
  = Some (PStr "ctx_i20231231_s").
Proof. split_and!; (discriminate || reflexivity). Qed.

(** ** Determinism and sensitivity of the identifier *)

(** Two well-formed dictionaries with the same contents list the same
    items, in some order. *)
Lemma same_contents_Permutation {V : Type} (d1 d2 : Dict.t V) :
  Dict.wf d1 -> Dict.wf d2 ->
  (forall k, Dict.get k d1 = Dict.get k d2) ->
  d1 ≡ₚ d2.
Proof.
  intros Hwf1 Hwf2 Hget.
  apply Stdlib.Sorting.Permutation.NoDup_Permutation.
  - apply DictFacts.wf_items_NoDup, Hwf1.
  - apply DictFacts.wf_items_NoDup, Hwf2.
  - intros [k v]. split; intros Hin.
    + apply DictFacts.get_Some_In. rewrite <- Hget.
      apply DictFacts.In_get; assumption.
    + apply DictFacts.get_Some_In. rewrite Hget.
      apply DictFacts.In_get; assumption.
Qed.

Lemma context_id_perm period_end period_start c (d1 d2 : Dict.t string) :
  d1 ≡ₚ d2 ->
  context_id period_end period_start c (Some d1)
  = context_id period_end period_start c (Some d2).
Proof.
  intros Hp. destruct d1 as [|x1 d1], d2 as [|x2 d2].
  - reflexivity.
  - apply Permutation_nil_l in Hp. discriminate Hp.
  - symmetry in Hp. apply Permutation_nil_l in Hp. discriminate Hp.
  - rewrite !context_id_dims. rewrite (sorted_items_perm_eq _ _ Hp).
    reflexivity.
Qed.

(** The identifier is its dimension-free base followed by a suffix that
    depends on the dimensions only. *)
Lemma context_id_suffix (dimensions : option (Dict.t string)) :
  exists suffix,
    forall period_end' period_start' c',
      context_id period_end' period_start' c' dimensions
      = context_id period_end' period_start' c' None +:+ suffix.
Proof.
  destruct dimensions as [[|x d]|].
  - exists "". intros. unfold context_id. rewrite StrFacts.append_nil_r.
    reflexivity.
  - exists ("_" +:+ Str.join "_" (map dim_part (sorted_items (x :: d)))).
    intros. apply context_id_dims.
  - exists "". intros. rewrite StrFacts.append_nil_r. reflexivity.
Qed.

Lemma context_id_start_presence period_end start c dimensions :
  context_id period_end None c dimensions
  <> context_id period_end (Some start) c dimensions.
Proof.
  destruct (context_id_suffix dimensions) as [suffix Hs].
  rewrite !Hs. intros H. apply StrFacts.append_inv_tail in H.
  unfold context_id, period_part in H.
  apply StrFacts.append_inv_head in H.
  rewrite !StrFacts.append_assoc in H.
  rewrite !StrFacts.append_cons in H. discriminate H.
Qed.

Lemma context_id_scope period_end period_start dimensions :
  context_id period_end period_start true dimensions
  <> context_id period_end period_start false dimensions.
Proof.
  destruct (context_id_suffix dimensions) as [suffix Hs].
  rewrite !Hs. intros H. apply StrFacts.append_inv_tail in H.
  unfold context_id in H.
  do 3 apply StrFacts.append_inv_head in H. discriminate H.
Qed.

Lemma with_value_fst k v' item : fst (with_value k v' item) = fst item.
Proof. unfold with_value. destruct (String.eqb (fst item) k); reflexivity. Qed.

Lemma map_with_value_other k v' (l : list (string * string)) :
  ~ In k (map fst l) -> map (with_value k v') l = l.
Proof.
  induction l as [|[k0 v0] l IH]; simpl; [reflexivity|].
  intros H. rewrite IH by tauto. f_equal.
  unfold with_value. simpl.
  destruct (String.eqb_spec k0 k); [exfalso; apply H; left; assumption|].
  reflexivity.
Qed.

Lemma map_with_value_split k v v' (l1 l2 : list (string * string)) :
  List.NoDup (map fst (l1 ++ (k, v) :: l2)) ->
  map (with_value k v') (l1 ++ (k, v) :: l2) = l1 ++ (k, v') :: l2.
Proof.
  intros Hnd. rewrite map_app in Hnd. simpl in Hnd.
  pose proof (NoDup_remove_2 _ _ _ Hnd) as Hk.
  rewrite map_app. simpl.
  rewrite !map_with_value_other.
  - unfold with_value. simpl. rewrite String.eqb_refl. reflexivity.
  - intros Hin. apply Hk, in_or_app. right; exact Hin.
  - intros Hin. apply Hk, in_or_app. left; exact Hin.
Qed.

(** Between items of distinct names the order looks at names only, so
    replacing a value leaves a sorted list of distinct names sorted. *)
Lemma Sorted_with_value k v' (l : list (string * string)) :
  List.NoDup (map fst l) -> Sorted item_le l ->
  Sorted item_le (map (with_value k v') l).
Proof.
  intros Hnd Hs. induction Hs as [|x l Hl IH Hhd]; simpl; constructor.
  - apply IH. simpl in Hnd. apply NoDup_cons_iff in Hnd. tauto.
  - destruct Hhd as [|y l' [Hxy _]]; simpl; constructor.
    split; rewrite !with_value_fst; [exact Hxy|].
    intros Heq. exfalso. simpl in Hnd. apply NoDup_cons_iff in Hnd as [Hx _].
    apply Hx. left. symmetry. exact Heq.
Qed.

Lemma sorted_items_with_value k v v' (l1 l2 : list (string * string)) :
  Dict.wf (l1 ++ (k, v) :: l2) ->
  sorted_items (l1 ++ (k, v') :: l2)
  = map (with_value k v') (sorted_items (l1 ++ (k, v) :: l2)).
Proof.
  intros Hwf. symmetry. apply sorted_items_unique.
  - apply Sorted_with_value; [|apply sorted_items_Sorted].
    eapply Permutation_NoDup; [|exact Hwf].
    apply Permutation_map. symmetry. apply sorted_items_Permutation.
  - rewrite <- (map_with_value_split k v v' l1 l2 Hwf).
    apply Permutation_map, sorted_items_Permutation.
Qed.

Lemma context_id_dimension_value period_end period_start c l1 k v v' l2 :
  Dict.wf (l1 ++ (k, v) :: l2) -> v <> v' ->
  context_id period_end period_start c (Some (l1 ++ (k, v) :: l2))
  <> context_id period_end period_start c (Some (l1 ++ (k, v') :: l2)).
Proof.
  intros Hwf Hne H.
  assert (Hid : forall x,
    context_id period_end period_start c (Some (l1 ++ (k, x) :: l2))
    = context_id period_end period_start c None +:+ "_"
      +:+ Str.join "_" (map dim_part (sorted_items (l1 ++ (k, x) :: l2)))).
  { intros x. destruct l1; apply context_id_dims. }
  rewrite !Hid in H. do 2 apply StrFacts.append_inv_head in H.
  rewrite (sorted_items_with_value k v v' l1 l2 Hwf) in H.
  assert (Hin : In (k, v) (sorted_items (l1 ++ (k, v) :: l2))).
  { eapply Permutation_in;
      [symmetry; apply sorted_items_Permutation | apply in_elt]. }
  apply in_split in Hin as (s1 & s2 & Hsplit).
  assert (Hnd : List.NoDup (map fst (s1 ++ (k, v) :: s2))).
  { rewrite <- Hsplit. eapply Permutation_NoDup; [|exact Hwf].
    apply Permutation_map. symmetry. apply sorted_items_Permutation. }
  rewrite Hsplit, (map_with_value_split k v v' s1 s2 Hnd) in H.
  rewrite !map_app in H. simpl in H. rewrite !StrFacts.join_split in H.
  apply StrFacts.append_inv_head in H.
  rewrite <- !StrFacts.append_assoc in H.
  apply StrFacts.append_inv_tail in H.
  rewrite !StrFacts.append_assoc in H.
  do 2 apply StrFacts.append_inv_head in H.
  exact (Hne H).
Qed.

(** C4.  [create_context_info] is deterministic and input-sensitive.  Two
    dimension mappings with the same contents, in whatever insertion
    order, give the same identifier; and the identifier changes when the
    start date is given instead of omitted, when the consolidation flag
    is flipped, or when the value of one dimension changes while all else
    stays fixed. *)
Theorem context_id_deterministic_and_sensitive :
  forall deps entity_name entity_identifier period_end period_start c,
  let id := fun period_end period_start is_consolidated dimensions =>
    descriptor_id (create_context_info deps entity_name entity_identifier
                     period_end period_start is_consolidated dimensions) in
  (forall d1 d2 : Dict.t string,
     Dict.wf d1 -> Dict.wf d2 ->
     (forall k, Dict.get k d1 = Dict.get k d2) ->
     id period_end period_start c (Some d1)
     = id period_end period_start c (Some d2)) /\
  (forall start dimensions,
     id period_end None c dimensions
     <> id period_end (Some start) c dimensions) /\
  (forall dimensions,
     id period_end period_start true dimensions
     <> id period_end period_start false dimensions) /\
  (forall l1 k v v' l2,
     Dict.wf (l1 ++ (k, v) :: l2) -> v <> v' ->
     id period_end period_start c (Some (l1 ++ (k, v) :: l2))
     <> id period_end period_start c (Some (l1 ++ (k, v') :: l2))).
Proof.
  intros deps entity_name entity_identifier period_end period_start c id.
  subst id. cbv beta. split_and!.
  - intros d1 d2 Hwf1 Hwf2 Hget. rewrite !create_context_info_id.
    do 2 f_equal. apply context_id_perm.
    apply same_contents_Permutation; assumption.
  - intros start dimensions. rewrite !create_context_info_id.
    intros [= H]. exact (context_id_start_presence _ _ _ _ H).
  - intros dimensions. rewrite !create_context_info_id.
    intros [= H]. exact (context_id_scope _ _ _ H).
  - intros l1 k v v' l2 Hwf Hne. rewrite !create_context_info_id.
    intros [= H].
    exact (context_id_dimension_value _ _ _ _ _ _ _ _ Hwf Hne H).
Qed.

Lemma context_id_deterministic_and_sensitive_witness :
  let id := fun dimensions =>
    descriptor_id (create_context_info Sample.registry "Acme Pte Ltd"
                     "201912345A" Sample.end_2023 (Some Sample.start_2023)
                     true dimensions) in
  id (Some [("segment", "retail"); ("region", "apac")])
  = id (Some [("region", "apac"); ("segment", "retail")])
  /\ id (Some [("segment", "retail"); ("region", "apac")])
     <> id (Some [("segment", "retail"); ("region", "emea")]).
Proof.
  destruct (context_id_deterministic_and_sensitive Sample.registry
              "Acme Pte Ltd" "201912345A" Sample.end_2023
              (Some Sample.start_2023) true) as (Hsame & _ & _ & Hvalue).
  split.
  - apply Hsame.
    + repeat constructor; simpl; intuition discriminate.
    + repeat constructor; simpl; intuition discriminate.
    + intros k. simpl.
      destruct (String.eqb_spec k "segment") as [Hk|];
        destruct (String.eqb_spec k "region"); try reflexivity.
      subst k. discriminate.
  - apply (Hvalue [("segment", "retail")] "region" "apac" "emea" []).
    + repeat constructor; simpl; intuition discriminate.
    + discriminate.
Defined.

(** ** The tag resolver *)

Section resolver.
Context {python_lower : Str.Lower}.

Lemma similar_spec (element_name field_name : string) :
  similar element_name field_name = true
  <-> fuzzy_match element_name field_name.
Proof.
  unfold similar, fuzzy_match.
  rewrite orb_true_iff, !StrFacts.str_in_spec. reflexivity.
Qed.

Lemma similar_false (element_name field_name : string) :
  similar element_name field_name = false
  <-> ~ fuzzy_match element_name field_name.
Proof.
  rewrite <- similar_spec.
  destruct (similar element_name field_name); split; congruence.
Qed.

(** The loop returns the first entry that matches. *)
Lemma find_similar_first element_name before field_name entry after :
  (forall k e, In (k, e) before -> ~ fuzzy_match element_name k) ->
  fuzzy_match element_name field_name ->
  find_similar element_name (before ++ (field_name, entry) :: after)
  = Some (field_name, entry).
Proof.
  intros Hbefore Hhere.
  induction before as [|[k e] before IH]; simpl.
  - apply similar_spec in Hhere. rewrite Hhere. reflexivity.
  - assert (similar element_name k = false) as ->.
    { apply similar_false. apply (Hbefore k e). left; reflexivity. }
    apply IH. intros k' e' Hin. apply (Hbefore k' e'). right; exact Hin.
Qed.

Lemma find_similar_none element_name entries :
  (forall k e, In (k, e) entries -> ~ fuzzy_match element_name k) ->
  find_similar element_name entries = None.
Proof.
  induction entries as [|[k e] entries IH]; simpl; [reflexivity|].
  intros H.
  assert (similar element_name k = false) as ->.
  { apply similar_false. apply (H k e). left; reflexivity. }
  apply IH. intros k' e' Hin. apply (H k' e'). right; exact Hin.
Qed.

(** The note on mandatory fields only ever adds to the end of the
    messages. *)
Lemma apply_tags_to_element_messages deps element_name value statement_type
    is_instant :
  exists note,
    res_messages (apply_tags_to_element deps element_name value
                    statement_type is_instant)
    = match Dict.get element_name (field_tags deps) with
      | Some _ => ["Found exact tag match for " +:+ element_name]
      | None =>
          ("No exact tag match found for " +:+ element_name) ::
          match find_similar element_name (Dict.items (field_tags deps)) with
          | Some (field_name, _) => ["Using similar tag: " +:+ field_name]
          | None => []
          end
      end ++ note
    /\ (note = [] \/
        note = ["Note: " +:+ element_name +:+ " is a mandatory field"]).
Proof.
  unfold apply_tags_to_element.
  destruct (Dict.get element_name (field_tags deps)) as [entry|];
    [|destruct (find_similar element_name (Dict.items (field_tags deps)))
        as [[field_name entry]|]];
    destruct (Dict.get element_name (mandatory_fields deps)) as [[|]|];
    simpl; eexists; (split; [reflexivity|]); auto;
    exists []; rewrite ?app_nil_r; auto.
Qed.

Lemma apply_tags_to_element_tags deps element_name value statement_type
    is_instant :
  res_tags (apply_tags_to_element deps element_name value statement_type
              is_instant)
  = map tag_dict
      match Dict.get element_name (field_tags deps) with
      | Some entry => entry
      | None =>
          match find_similar element_name (Dict.items (field_tags deps)) with
          | Some (_, entry) => entry
          | None => []
          end
      end.
Proof.
  unfold apply_tags_to_element.
  destruct (Dict.get element_name (field_tags deps)) as [entry|];
    [|destruct (find_similar element_name (Dict.items (field_tags deps)))
        as [[field_name entry]|]];
    destruct (Dict.get element_name (mandatory_fields deps)) as [[|]|];
    reflexivity.
Qed.

(** C5.  A field name that is a key of the field-tag index resolves to
    exactly that entry's tags, with the exact-match message first and no
    fallback message, whatever other entries of the registry would match
    it as substrings. *)
Theorem exact_match_wins :
  forall deps element_name value statement_type is_instant entry,
    Dict.get element_name (field_tags deps) = Some entry ->
    let result :=
      apply_tags_to_element deps element_name value statement_type
        is_instant in
    res_tags result = map tag_dict entry /\
    hd_error (res_messages result)
    = Some ("Found exact tag match for " +:+ element_name) /\
    (forall field_name,
       ~ In ("Using similar tag: " +:+ field_name) (res_messages result)).
Proof.
  intros deps element_name value statement_type is_instant entry Hget result.
  subst result. split_and!.
  - rewrite apply_tags_to_element_tags, Hget. reflexivity.
  - destruct (apply_tags_to_element_messages deps element_name value
                statement_type is_instant) as (note & -> & _).
    rewrite Hget. reflexivity.
  - intros field_name.
    destruct (apply_tags_to_element_messages deps element_name value
                statement_type is_instant) as (note & -> & Hnote).
    rewrite Hget. simpl.
    destruct Hnote as [-> | ->]; simpl; intros H;
      repeat destruct H as [H | H]; try discriminate H; exact H.
Qed.

(** C6.  A field name that is no key of the field-tag index is resolved
    by the fallback: the first entry of the index, in its order, whose key
    contains the name or is contained in it (ignoring case) gives the
    tags, and a message names that entry.  When no entry matches, the tags
    are empty and the messages are not.  The function is total: it returns
    a result on every input. *)
Theorem fuzzy_fallback_first_match :
  forall deps element_name value statement_type is_instant,
    Dict.get element_name (field_tags deps) = None ->
    let result :=
      apply_tags_to_element deps element_name value statement_type
        is_instant in
    (forall before field_name entry after,
       Dict.items (field_tags deps)
       = before ++ (field_name, entry) :: after ->
       (forall k e, In (k, e) before -> ~ fuzzy_match element_name k) ->
       fuzzy_match element_name field_name ->
       res_tags result = map tag_dict entry /\
       In ("Using similar tag: " +:+ field_name) (res_messages result)) /\
    ((forall k e,
        In (k, e) (Dict.items (field_tags deps)) ->
        ~ fuzzy_match element_name k) ->
     res_tags result = [] /\ res_messages result <> []).
Proof.
  intros deps element_name value statement_type is_instant Hget result.
  subst result. split.
  - intros before field_name entry after Hitems Hbefore Hhere.
    pose proof (find_similar_first element_name before field_name entry
                  after Hbefore Hhere) as Hfind.
    rewrite <- Hitems in Hfind. split.
    + rewrite apply_tags_to_element_tags, Hget, Hfind. reflexivity.
    + destruct (apply_tags_to_element_messages deps element_name value
                  statement_type is_instant) as (note & -> & _).
      rewrite Hget, Hfind. simpl. right; left; reflexivity.
  - intros Hnone. apply find_similar_none in Hnone. split.
    + rewrite apply_tags_to_element_tags, Hget, Hnone. reflexivity.
    + destruct (apply_tags_to_element_messages deps element_name value
                  statement_type is_instant) as (note & -> & _).
      rewrite Hget. discriminate.
Qed.

End resolver.

(** ** The section tagger *)

Section tag_fields.
Variable deps : XBRLTaxonomyDependencies.

(** A key with no scalar entry among the fields is left as it was. *)
Lemma tag_fields_get_other (fields : list (string * pyvalue))
    (acc : Dict.t pyvalue) (k : string) :
  (forall v, In (k, v) fields -> is_list_or_dict v = true) ->
  Dict.get k (fold_left (tag_field deps) fields acc) = Dict.get k acc.
Proof.
  revert acc. induction fields as [|[k0 v0] fields IH]; intros acc H;
    simpl; [reflexivity|].
  rewrite IH by (intros v Hin; apply H; right; exact Hin).
  destruct (is_list_or_dict v0) eqn:E; [reflexivity|].
  apply DictFacts.get_set_ne. intros ->.
  rewrite (H v0) in E by (left; reflexivity). discriminate E.
Qed.

(** A scalar entry whose key does not come again is found in the result
    with its element. *)
Lemma tag_fields_get_scalar (before after : list (string * pyvalue))
    (acc : Dict.t pyvalue) (k : string) (v : pyvalue) :
  is_list_or_dict v = false -> ~ In k (map fst after) ->
  Dict.get k (fold_left (tag_field deps) (before ++ (k, v) :: after) acc)
  = Some (tagged_element deps k v).
Proof.
  intros Hv Hafter. rewrite fold_left_app. simpl. rewrite Hv.
  rewrite tag_fields_get_other.
  - apply DictFacts.get_set_eq.
  - intros v' Hin. exfalso. apply Hafter.
    apply (in_map fst) in Hin. exact Hin.
Qed.

(** Every entry of the result was there at the start or is the element
    of a scalar field. *)
Lemma tag_fields_In (fields : list (string * pyvalue)) (acc : Dict.t pyvalue)
    (k : string) (x : pyvalue) :
  In (k, x) (fold_left (tag_field deps) fields acc) ->
  In (k, x) acc
  \/ exists v, In (k, v) fields /\ is_list_or_dict v = false
               /\ x = tagged_element deps k v.
Proof.
  revert acc. induction fields as [|[k0 v0] fields IH]; intros acc; simpl;
    [auto|].
  intros Hin. apply IH in Hin as [Hin | (v & Hin & Hv & ->)].
  - destruct (is_list_or_dict v0) eqn:E; [left; exact Hin|].
    apply DictFacts.In_set in Hin as [[-> ->] | Hin]; [|left; exact Hin].
    right. exists v0. auto.
  - right. exists v. auto.
Qed.

Lemma tag_fields_wf (fields : list (string * pyvalue)) (acc : Dict.t pyvalue) :
  Dict.wf acc -> Dict.wf (fold_left (tag_field deps) fields acc).
Proof.
  revert acc. induction fields as [|[k0 v0] fields IH]; intros acc Hwf;
    simpl; [exact Hwf|].
  apply IH. destruct (is_list_or_dict v0); [exact Hwf|].
  apply DictFacts.wf_set, Hwf.
Qed.

(** Keys are never removed. *)
Lemma tag_fields_keys (fields : list (string * pyvalue)) (acc : Dict.t pyvalue)
    (k : string) :
  In k (Dict.keys acc) -> In k (Dict.keys (fold_left (tag_field deps) fields acc)).
Proof.
  revert acc. induction fields as [|[k0 v0] fields IH]; intros acc Hin;
    simpl; [exact Hin|].
  apply IH. destruct (is_list_or_dict v0); [exact Hin|].
  apply DictFacts.keys_set. right; exact Hin.
Qed.

End tag_fields.

Section section_tagger.
Context {python_lower : Str.Lower}.

Lemma tag_statement_section_wf deps section_name section_data :
  Dict.wf (tag_statement_section deps section_name section_data).
Proof.
  apply tag_fields_wf. repeat constructor. intros [].
Qed.

(** The element of a scalar field of a well-formed section. *)
Lemma tag_statement_section_scalar deps section_name section_data k v :
  Dict.wf section_data ->
  In (k, v) (Dict.items section_data) -> is_list_or_dict v = false ->
  Dict.get k (tag_statement_section deps section_name section_data)
  = Some (tagged_element deps k v).
Proof.
  intros Hwf Hin Hv. apply in_split in Hin as (before & after & Hsplit).
  unfold tag_statement_section. rewrite Hsplit.
  apply tag_fields_get_scalar; [exact Hv|].
  unfold Dict.wf, Dict.items in *. rewrite Hsplit, map_app in Hwf.
  simpl in Hwf. apply NoDup_remove_2 in Hwf.
  intros Hk. apply Hwf, in_or_app. right; exact Hk.
Qed.

(** C2, as the code has it.  The tags that [tag_statement_section]
    attaches to a scalar field are the exact-match tags only.  They are
    the tags [apply_tags_to_element] returns when the field name is a key
    of the registry, and also when no key of the registry matches it as a
    substring; when the name is not a key the tag list is empty, whatever
    similar keys the registry holds.  There is no fuzzy fallback in the
    section tagger. *)
Theorem section_tags_exact_only :
  forall deps section_name section_data field_name value statement_type
         is_instant,
    Dict.wf section_data ->
    In (field_name, value) (Dict.items section_data) ->
    is_list_or_dict value = false ->
    let attached :=
      element_tags (tag_statement_section deps section_name section_data)
        field_name in
    let resolved :=
      res_tags (apply_tags_to_element deps field_name value statement_type
                  is_instant) in
    (forall entry,
       Dict.get field_name (field_tags deps) = Some entry ->
       attached = Some resolved) /\
    (Dict.get field_name (field_tags deps) = None -> attached = Some []) /\
    ((forall k e,
        In (k, e) (Dict.items (field_tags deps)) ->
        ~ fuzzy_match field_name k) ->
     attached = Some resolved).
Proof.
  intros deps section_name section_data field_name value statement_type
    is_instant Hwf Hin Hv attached resolved.
  assert (Hattached : attached
    = Some (map tag_dict match Dict.get field_name (field_tags deps) with
                         | Some entry => entry
                         | None => []
                         end)).
  { subst attached. unfold element_tags.
    rewrite (tag_statement_section_scalar _ _ _ _ _ Hwf Hin Hv).
    reflexivity. }
  subst resolved. rewrite apply_tags_to_element_tags, Hattached.
  split_and!.
  - intros entry ->. reflexivity.
  - intros ->. reflexivity.
  - intros Hnone. destruct (Dict.get field_name (field_tags deps)) eqn:E;
      [reflexivity|].
    rewrite (find_similar_none _ _ Hnone). reflexivity.
Qed.

(** C9, as the code has it.  A key of [section_data] whose value is a
    list or a dictionary does not appear in the output, provided the key
    is not "meta_tags", which the output always has. *)
Theorem nested_fields_skipped :
  forall deps section_name section_data k v,
    Dict.wf section_data ->
    In (k, v) (Dict.items section_data) ->
    is_list_or_dict v = true ->
    k <> "meta_tags" ->
    ~ In k (Dict.keys (tag_statement_section deps section_name section_data)).
Proof.
  intros deps section_name section_data k v Hwf Hin Hv Hk.
  apply DictFacts.get_None_iff. unfold tag_statement_section.
  rewrite tag_fields_get_other.
  - simpl. destruct (String.eqb_spec k "meta_tags"); [contradiction|].
    reflexivity.
  - intros v' Hin'.
    assert (v' = v) as ->; [|exact Hv].
    pose proof (DictFacts.In_get _ _ _ Hwf Hin) as H1.
    pose proof (DictFacts.In_get _ _ _ Hwf Hin') as H2. congruence.
Qed.

(** C10.  The output of [tag_statement_section] always has the key
    "meta_tags".  When [section_data] has a scalar entry named
    "meta_tags", the output holds that field's [{value, tags}] element
    under "meta_tags"; every entry of the output is then the element of
    some field, so the collected section-level tags are nowhere in it. *)
Theorem meta_tags_key_and_overwrite :
  forall deps section_name section_data,
    let output := tag_statement_section deps section_name section_data in
    In "meta_tags" (Dict.keys output) /\
    (forall v,
       Dict.wf section_data ->
       In ("meta_tags", v) (Dict.items section_data) ->
       is_list_or_dict v = false ->
       (exists tags,
          Dict.get "meta_tags" output
          = Some (PDict [("value", v); ("tags", PList tags)])) /\
       (forall k x,
          In (k, x) output ->
          (exists value tags,
             In (k, value) (Dict.items section_data) /\
             x = PDict [("value", value); ("tags", PList tags)]) /\
          x <> PList (section_meta_tags deps section_name))).
Proof.
  intros deps section_name section_data output. split.
  - subst output. apply tag_fields_keys. left; reflexivity.
  - intros v Hwf Hin Hv.
    pose proof (tag_statement_section_scalar deps section_name _ _ _
                  Hwf Hin Hv) as Hmeta.
    fold output in Hmeta. split; [eexists; exact Hmeta|].
    intros k x Hx.
    assert (Helement : exists value,
              In (k, value) (Dict.items section_data)
              /\ x = tagged_element deps k value).
    { pose proof Hx as Hx'. apply tag_fields_In in Hx'
        as [[[= <- <-] | []] | (value & Hvalue & _ & ->)].
      - exfalso.
        pose proof (DictFacts.In_get _ _ _
                      (tag_statement_section_wf deps section_name
                         section_data) Hx) as Hget.
        fold output in Hget. rewrite Hmeta in Hget. discriminate Hget.
      - exists value. auto. }
    destruct Helement as (value & Hvalue & ->). split.
    + exists value. eexists. split; [exact Hvalue | reflexivity].
    + discriminate.
Qed.

End section_tagger.

(** ** The validator *)

Lemma check_mandatory_fold tagged_data entries issues :
  fold_left (check_mandatory tagged_data) entries issues
  = issues ++ mandatory_issues tagged_data entries.
Proof.
  revert issues. induction entries as [|[f m] entries IH]; intros issues;
    simpl.
  - rewrite app_nil_r. reflexivity.
  - rewrite IH. destruct m; simpl; [|reflexivity].
    destruct (field_found f tagged_data); simpl; [reflexivity|].
    rewrite <- app_assoc. reflexivity.
Qed.

Lemma check_field_fold section_name fields issues :
  fold_left (check_field section_name) fields issues
  = issues ++ field_issues section_name fields.
Proof.
  revert issues. induction fields as [|[f fd] fields IH]; intros issues;
    simpl.
  - rewrite app_nil_r. reflexivity.
  - rewrite IH. destruct (lacks_tags fd); simpl; [|reflexivity].
    rewrite <- app_assoc. reflexivity.
Qed.

Lemma check_section_fold sections issues :
  fold_left check_section sections issues
  = issues ++ section_issues sections.
Proof.
  revert issues. induction sections as [|[sn sd] sections IH]; intros issues;
    simpl.
  - rewrite app_nil_r. reflexivity.
  - rewrite IH. destruct sd; try reflexivity.
    unfold Dict.items. rewrite check_field_fold, <- app_assoc. reflexivity.
Qed.

(** The issue list: the mandatory-field issues, then the tag issues. *)
Lemma validate_tagged_data_issues deps tagged_data :
  validate_tagged_data deps tagged_data
  = mandatory_issues tagged_data (Dict.items (mandatory_fields deps))
    ++ section_issues (Dict.items tagged_data).
Proof.
  unfold validate_tagged_data.
  rewrite check_section_fold, check_mandatory_fold. reflexivity.
Qed.

Lemma mandatory_issues_In tagged_data entries issue :
  In issue (mandatory_issues tagged_data entries)
  <-> exists field_name,
        In (field_name, true) entries
        /\ field_found field_name tagged_data = false
        /\ issue = missing_mandatory_issue field_name.
Proof.
  unfold mandatory_issues. rewrite in_flat_map. split.
  - intros ([f m] & Hin & Hissue).
    destruct m; simpl in Hissue; [|destruct Hissue].
    destruct (field_found f tagged_data) eqn:E; simpl in Hissue;
      [destruct Hissue|].
    destruct Hissue as [<- | []]. exists f. auto.
  - intros (f & Hin & Hfound & ->). exists (f, true). split; [exact Hin|].
    simpl. rewrite Hfound. left; reflexivity.
Qed.

Lemma section_issues_type sections issue :
  In issue (section_issues sections) ->
  Dict.get "type" issue = Some "missing_tags".
Proof.
  unfold section_issues. rewrite in_flat_map.
  intros ([sn sd] & _ & Hin). destruct sd; try destruct Hin.
  unfold field_issues in Hin. apply in_flat_map in Hin as ([f fd] & _ & Hin).
  destruct (lacks_tags fd); [|destruct Hin].
  destruct Hin as [<- | []]. reflexivity.
Qed.

Lemma field_found_false field_name tagged_data :
  field_found field_name tagged_data = false
  <-> absent_from_every_section field_name tagged_data.
Proof.
  unfold field_found, absent_from_every_section, Dict.items.
  induction tagged_data as [|[sn sd] rest IH]; simpl.
  - split; [intros _ ? ? [] | reflexivity].
  - rewrite orb_false_iff, IH. split.
    + intros [Hhere Hrest] section_name d [[= -> ->] | Hin].
      * apply DictFacts.mem_false_iff. exact Hhere.
      * exact (Hrest section_name d Hin).
    + intros H. split.
      * destruct sd; try reflexivity. simpl.
        apply DictFacts.mem_false_iff. apply (H sn). left; reflexivity.
      * intros section_name d Hin. apply (H section_name). right; exact Hin.
Qed.

Lemma missing_mandatory_issue_inj f1 f2 :
  missing_mandatory_issue f1 = missing_mandatory_issue f2 -> f1 = f2.
Proof. intros [= H _]. exact H. Qed.

(** C7.  For a mandatory field name, [validate_tagged_data] reports a
    missing_mandatory_field issue naming it exactly when the name is a key
    of no section of the document.  Every missing_mandatory_field issue
    reported names a mandatory field that no section has; so a document in
    which each mandatory field is a key of some section gets none. *)
Theorem missing_mandatory_field_iff_absent :
  forall deps tagged_data,
    let issues := validate_tagged_data deps tagged_data in
    (forall field_name,
       Dict.get field_name (mandatory_fields deps) = Some true ->
       (In (missing_mandatory_issue field_name) issues
        <-> absent_from_every_section field_name tagged_data)) /\
    (forall field_name,
       Dict.get "type" (missing_mandatory_issue field_name)
       = Some "missing_mandatory_field" /\
       Dict.get "field" (missing_mandatory_issue field_name)
       = Some field_name) /\
    (forall issue,
       In issue issues ->
       Dict.get "type" issue = Some "missing_mandatory_field" ->
       exists field_name,
         issue = missing_mandatory_issue field_name /\
         In (field_name, true) (Dict.items (mandatory_fields deps)) /\
         absent_from_every_section field_name tagged_data) /\
    ((forall field_name,
        In (field_name, true) (Dict.items (mandatory_fields deps)) ->
        ~ absent_from_every_section field_name tagged_data) ->
     forall issue,
       In issue issues ->
       Dict.get "type" issue <> Some "missing_mandatory_field").
Proof.
  intros deps tagged_data issues. subst issues.
  rewrite validate_tagged_data_issues.
  assert (Hreported : forall issue,
    In issue (mandatory_issues tagged_data (Dict.items (mandatory_fields deps))
              ++ section_issues (Dict.items tagged_data)) ->
    Dict.get "type" issue = Some "missing_mandatory_field" ->
    exists field_name,
      issue = missing_mandatory_issue field_name /\
      In (field_name, true) (Dict.items (mandatory_fields deps)) /\
      absent_from_every_section field_name tagged_data).
  { intros issue Hin Htype. apply in_app_or in Hin as [Hin | Hin].
    - apply mandatory_issues_In in Hin as (f & Hin & Hfound & ->).
      exists f. split_and!; [reflexivity | exact Hin|].
      apply field_found_false, Hfound.
    - apply section_issues_type in Hin. rewrite Hin in Htype.
      discriminate Htype. }
  split_and!.
  - intros field_name Hmandatory. split.
    + intros Hin. destruct (Hreported _ Hin eq_refl) as (f & Heq & _ & Habsent).
      apply missing_mandatory_issue_inj in Heq as ->. exact Habsent.
    + intros Habsent. apply in_or_app. left. apply mandatory_issues_In.
      exists field_name. split_and!.
      * apply DictFacts.get_Some_In, Hmandatory.
      * apply field_found_false, Habsent.
      * reflexivity.
  - intros field_name. split; reflexivity.
  - exact Hreported.
  - intros Hpresent issue Hin Htype.
    destruct (Hreported issue Hin Htype) as (f & _ & Hf & Habsent).
    exact (Hpresent f Hf Habsent).
Qed.

Lemma missing_mandatory_field_iff_absent_witness :
  In (missing_mandatory_issue "Revenue")
     (validate_tagged_data Sample.registry Sample.document_without_revenue)
  /\ ~ In (missing_mandatory_issue "Revenue")
          (validate_tagged_data Sample.registry Sample.document).
Proof.
  split.
  - apply (proj1 (missing_mandatory_field_iff_absent Sample.registry
                    Sample.document_without_revenue) "Revenue" eq_refl).
    apply field_found_false. reflexivity.
  - intros Hin.
    apply (proj1 (missing_mandatory_field_iff_absent Sample.registry
                    Sample.document) "Revenue" eq_refl) in Hin.
    apply field_found_false in Hin. discriminate Hin.
Defined.

Lemma lacks_tags_false field_data :
  tags_is_list field_data -> ~ has_empty_tag_list field_data ->
  lacks_tags field_data = false.
Proof.
  intros Hlist Hnonempty. destruct field_data as [| | | | |e]; try reflexivity.
  simpl. destruct (Dict.get "tags" e) as [tags|] eqn:E; [|reflexivity].
  destruct (Hlist e tags eq_refl E) as [l ->].
  destruct l; [|reflexivity].
  exfalso. apply Hnonempty. exists e. auto.
Qed.

Lemma field_issues_nil section_name fields :
  fields_tagged fields -> field_issues section_name fields = [].
Proof.
  induction fields as [|[f fd] fields IH]; intros H; [reflexivity|].
  simpl. rewrite IH by (intros f' fd' Hin; apply (H f'); right; exact Hin).
  destruct (H f fd) as [Hlist Hnonempty]; [left; reflexivity|].
  rewrite (lacks_tags_false _ Hlist Hnonempty). reflexivity.
Qed.

Lemma section_issues_nil sections :
  sections_tagged sections -> section_issues sections = [].
Proof.
  induction sections as [|[sn sd] sections IH]; intros H; [reflexivity|].
  simpl. rewrite IH by (intros sn' d Hin; apply (H sn'); right; exact Hin).
  destruct sd; try reflexivity.
  rewrite field_issues_nil; [reflexivity|].
  apply (H sn). left; reflexivity.
Qed.

Lemma mandatory_issues_no_missing_tags tagged_data entries :
  List.filter (issue_has_type "missing_tags")
    (mandatory_issues tagged_data entries) = [].
Proof.
  induction entries as [|[f m] entries IH]; [reflexivity|].
  unfold mandatory_issues in *. simpl. rewrite List.filter_app, IH.
  destruct (m && negb (field_found f tagged_data)); reflexivity.
Qed.

(** C8.  In a document of tagged elements where exactly one field has an
    empty tag list, [validate_tagged_data] reports exactly one
    missing_tags issue, and it names that field and its section. *)
Theorem one_untagged_field_one_issue :
  forall deps before section_name fields_before field_name e fields_after
         after,
    Dict.get "tags" e = Some (PList []) ->
    sections_tagged (before ++ after) ->
    fields_tagged (fields_before ++ fields_after) ->
    let tagged_data :=
      before
      ++ (section_name,
          PDict (fields_before ++ (field_name, PDict e) :: fields_after))
         :: after in
    List.filter (issue_has_type "missing_tags")
      (validate_tagged_data deps tagged_data)
    = [missing_tags_issue section_name field_name]
    /\ Dict.get "section" (missing_tags_issue section_name field_name)
       = Some section_name
    /\ Dict.get "field" (missing_tags_issue section_name field_name)
       = Some field_name.
Proof.
  intros deps before section_name fields_before field_name e fields_after
    after He Hsections Hfields tagged_data.
  split; [|split; reflexivity].
  subst tagged_data. rewrite validate_tagged_data_issues.
  rewrite List.filter_app, mandatory_issues_no_missing_tags.
  unfold Dict.items, section_issues. rewrite flat_map_app. simpl.
  fold (section_issues before). fold (section_issues after).
  rewrite (section_issues_nil before), (section_issues_nil after).
  - unfold field_issues. rewrite flat_map_app. simpl.
    fold (field_issues section_name fields_before).
    fold (field_issues section_name fields_after).
    rewrite (field_issues_nil _ fields_before),
            (field_issues_nil _ fields_after).
    + rewrite He. reflexivity.
    + intros f fd Hin. apply (Hfields f), in_or_app. right; exact Hin.
    + intros f fd Hin. apply (Hfields f), in_or_app. left; exact Hin.
  - intros sn d Hin. apply (Hsections sn), in_or_app. right; exact Hin.
  - intros sn d Hin. apply (Hsections sn), in_or_app. left; exact Hin.
Qed.

Lemma one_untagged_field_one_issue_witness :
  List.filter (issue_has_type "missing_tags")
    (validate_tagged_data Sample.registry Sample.document)
  = [missing_tags_issue "balanceSheet" "Goodwill"]
  /\ Dict.get "section" (missing_tags_issue "balanceSheet" "Goodwill")
     = Some "balanceSheet"
  /\ Dict.get "field" (missing_tags_issue "balanceSheet" "Goodwill")
     = Some "Goodwill".
Proof.
  apply (one_untagged_field_one_issue Sample.registry
           [("incomeStatement",
               PDict [ ("meta_tags", PList [tag_dict Sample.income_abstract]);
                       ("Revenue",
                          PDict [ ("value", PInt 1200);
                                  ("tags", PList [tag_dict Sample.revenue])])])]
           "balanceSheet" [("meta_tags", PList [])] "Goodwill"
           [("value", PInt 7); ("tags", PList [])] [] []).
  - reflexivity.
  - intros sn d [[= <- <-] | []] f fd [[= <- <-] | [[= <- <-] | []]]; split.
    + intros e tags [=].
    + intros (e & [=] & _).
    + intros e tags [= <-] [= <-]. eexists; reflexivity.
    + intros (e & [= <-] & [=]).
  - intros f fd [[= <- <-] | []]; split.
    + intros e tags [=].
    + intros (e & [=] & _).
Defined.

(** * Further properties *)

(** ** The tag resolver *)

Section resolver_more.
Context {python_lower : Str.Lower}.

Lemma fuzzy_match_refl (name : string) : fuzzy_match name name.
Proof.
  left. exists "", "". rewrite StrFacts.append_nil_r. reflexivity.
Qed.

Lemma find_similar_Some element_name entries field_name entry :
  find_similar element_name entries = Some (field_name, entry) ->
  In (field_name, entry) entries /\ fuzzy_match element_name field_name.
Proof.
  induction entries as [|[k e] entries IH]; simpl; [discriminate|].
  destruct (similar element_name k) eqn:E.
  - intros [= <- <-]. split; [left; reflexivity | apply similar_spec, E].
  - intros H. destruct (IH H) as [Hin Hmatch]. auto.
Qed.

Lemma find_similar_None element_name entries :
  find_similar element_name entries = None ->
  forall k e, In (k, e) entries -> ~ fuzzy_match element_name k.
Proof.
  induction entries as [|[k0 e0] entries IH]; simpl; [intros _ k e []|].
  destruct (similar element_name k0) eqn:E; [discriminate|].
  intros H k e [[= <- <-] | Hin]; [apply similar_false, E | eauto].
Qed.

(** X1.  The mandatory flag of the result is set exactly when
    [mandatory_fields] maps the element name to [True], and the note on
    mandatory fields is among the messages in exactly that case, however
    the tags were resolved. *)
Theorem mandatory_flag_and_note :
  forall deps element_name value statement_type is_instant,
    let result :=
      apply_tags_to_element deps element_name value statement_type
        is_instant in
    (res_is_mandatory result = true
     <-> Dict.get element_name (mandatory_fields deps) = Some true) /\
    (In ("Note: " +:+ element_name +:+ " is a mandatory field")
        (res_messages result)
     <-> Dict.get element_name (mandatory_fields deps) = Some true).
Proof.
  intros deps element_name value statement_type is_instant result.
  subst result. unfold apply_tags_to_element.
  destruct (Dict.get element_name (field_tags deps)) as [entry|];
    [|destruct (find_similar element_name (Dict.items (field_tags deps)))
        as [[field_name entry]|]];
    destruct (Dict.get element_name (mandatory_fields deps)) as [[|]|];
    simpl; (split; split; intros H); try reflexivity; try discriminate H;
    auto;
    repeat match goal with
           | H : _ \/ _ |- _ => destruct H as [H | H]
           end;
    try discriminate H; try contradiction.
Qed.

(** X2.  The tags of the result always come from the registry: they are
    the tags of an entry whose key contains the element name or is
    contained in it, ignoring case (the key itself included), or else no
    key of the registry matches and the tags are empty. *)
Theorem resolved_tags_come_from_registry :
  forall deps element_name value statement_type is_instant,
    let result :=
      apply_tags_to_element deps element_name value statement_type
        is_instant in
    (exists field_name entry,
       In (field_name, entry) (Dict.items (field_tags deps)) /\
       fuzzy_match element_name field_name /\
       res_tags result = map tag_dict entry)
    \/ ((forall k e,
           In (k, e) (Dict.items (field_tags deps)) ->
           ~ fuzzy_match element_name k) /\
        res_tags result = []).
Proof.
  intros deps element_name value statement_type is_instant result.
  subst result. rewrite apply_tags_to_element_tags.
  destruct (Dict.get element_name (field_tags deps)) as [entry|] eqn:Hget.
  - left. exists element_name, entry. split_and!.
    + apply DictFacts.get_Some_In, Hget.
    + apply fuzzy_match_refl.
    + reflexivity.
  - destruct (find_similar element_name (Dict.items (field_tags deps)))
      as [[field_name entry]|] eqn:Hfind.
    + left. apply find_similar_Some in Hfind as [Hin Hmatch].
      exists field_name, entry. auto.
    + right. split; [exact (find_similar_None _ _ Hfind) | reflexivity].
Qed.

(** X3.  The empty element name is contained in every key: when it is no
    key itself and the registry is not empty, it resolves to the tags of
    the first entry of the registry, and the fallback message names that
    entry. *)
Theorem empty_name_takes_first_entry :
  forall deps value statement_type is_instant field_name entry rest,
    Dict.get "" (field_tags deps) = None ->
    Dict.items (field_tags deps) = (field_name, entry) :: rest ->
    let result :=
      apply_tags_to_element deps "" value statement_type is_instant in
    res_tags result = map tag_dict entry /\
    In ("Using similar tag: " +:+ field_name) (res_messages result).
Proof.
  intros deps value statement_type is_instant field_name entry rest Hget
    Hitems result. subst result.
  assert (Hfind : find_similar "" (Dict.items (field_tags deps))
                  = Some (field_name, entry)).
  { rewrite Hitems. simpl. unfold similar. rewrite Str.lower_empty.
    rewrite StrFacts.str_in_unfold. reflexivity. }
  split.
  - rewrite apply_tags_to_element_tags, Hget, Hfind. reflexivity.
  - destruct (apply_tags_to_element_messages deps "" value statement_type
                is_instant) as (note & -> & _).
    rewrite Hget, Hfind. simpl. right; left; reflexivity.
Qed.

End resolver_more.

(** ** The context identifier *)

Lemma digit_inj (a b : nat) : digit a = digit b -> a mod 10 = b mod 10.
Proof.
  unfold digit. intros H. apply (f_equal nat_of_ascii) in H.
  pose proof (Nat.mod_upper_bound a 10).
  pose proof (Nat.mod_upper_bound b 10).
  rewrite !nat_ascii_embedding in H by lia. lia.
Qed.

(** Numbers below ten thousand are told apart by their last four
    digits. *)
Lemma last_four_digits_inj (y y' : nat) :
  (Z.of_nat y <= 9999)%Z -> (Z.of_nat y' <= 9999)%Z ->
  (y / 1000) mod 10 = (y' / 1000) mod 10 ->
  (y / 100) mod 10 = (y' / 100) mod 10 ->
  (y / 10) mod 10 = (y' / 10) mod 10 ->
  y mod 10 = y' mod 10 ->
  y = y'.
Proof.
  intros Hy Hy' H3 H2 H1 H0. apply Nat2Z.inj.
  apply (f_equal Z.of_nat) in H3, H2, H1, H0.
  rewrite !Nat2Z.inj_mod, !Nat2Z.inj_div in *.
  change (Z.of_nat 10) with 10%Z in *.
  change (Z.of_nat 100) with 100%Z in *.
  change (Z.of_nat 1000) with 1000%Z in *.
  pose proof (Nat2Z.is_nonneg y). pose proof (Nat2Z.is_nonneg y').
  generalize dependent (Z.of_nat y). generalize dependent (Z.of_nat y').
  intros. Z.to_euclidean_division_equations. lia.
Qed.

Lemma last_two_digits_inj (m m' : nat) :
  m <= 31 -> m' <= 31 ->
  (m / 10) mod 10 = (m' / 10) mod 10 -> m mod 10 = m' mod 10 -> m = m'.
Proof.
  intros Hm Hm' H1 H0.
  pose proof (Nat.div_mod_eq m 10). pose proof (Nat.div_mod_eq m' 10).
  assert (m / 10 < 10) by (apply Nat.Div0.div_lt_upper_bound; lia).
  assert (m' / 10 < 10) by (apply Nat.Div0.div_lt_upper_bound; lia).
  rewrite (Nat.mod_small (m / 10)), (Nat.mod_small (m' / 10)) in H1 by lia.
  lia.
Qed.

(** From the year 1000 on, a formatted date is eight characters that give
    the date back, so it can be read off the front of a longer string. *)
Lemma strftime_Ymd_inv (d d' : date) (r r' : string) :
  date_in_range d -> date_in_range d' ->
  strftime_Ymd d +:+ r = strftime_Ymd d' +:+ r' -> d = d' /\ r = r'.
Proof.
  intros (Hlo & Hy & Hm & Hd) (Hlo' & Hy' & Hm' & Hd').
  destruct d as [y m a], d' as [y' m' a']. simpl in *.
  unfold strftime_Ymd. simpl. rewrite !strftime_Y_four by assumption.
  unfold four_digits, two_digits.
  repeat rewrite ?StrFacts.append_cons, ?StrFacts.append_nil_l.
  intros [= H1 H2 H3 H4 H5 H6 H7 H8 Hr].
  apply digit_inj in H1, H2, H3, H4, H5, H6, H7, H8.
  split; [|exact Hr].
  rewrite (last_four_digits_inj y y'), (last_two_digits_inj m m'),
    (last_two_digits_inj a a'); auto; lia.
Qed.

Lemma context_id_period_scope_inj period_end period_start c period_end'
    period_start' c' dimensions :
  date_in_range period_end -> date_in_range period_end' ->
  (forall start, period_start = Some start -> date_in_range start) ->
  (forall start, period_start' = Some start -> date_in_range start) ->
  context_id period_end period_start c dimensions
  = context_id period_end' period_start' c' dimensions ->
  period_end = period_end' /\ period_start = period_start' /\ c = c'.
Proof.
  intros Hend Hend' Hstart Hstart' H.
  destruct (context_id_suffix dimensions) as [suffix Hs].
  rewrite !Hs in H. apply StrFacts.append_inv_tail in H.
  unfold context_id, period_part in H.
  apply StrFacts.append_inv_head in H.
  assert (Hscope : forall b b' : bool,
            "_" +:+ (if b then "c" else "s")
            = "_" +:+ (if b' then "c" else "s") -> b = b').
  { intros [|] [|]; (reflexivity || discriminate). }
  destruct period_start as [start|], period_start' as [start'|];
    rewrite !StrFacts.append_assoc in H.
  - apply StrFacts.append_inv_head in H.
    apply strftime_Ymd_inv in H as [-> H]; auto.
    apply StrFacts.append_inv_head in H.
    apply strftime_Ymd_inv in H as [-> H]; auto.
  - rewrite !StrFacts.append_cons in H. discriminate H.
  - rewrite !StrFacts.append_cons in H. discriminate H.
  - apply StrFacts.append_inv_head in H.
    apply strftime_Ymd_inv in H as [-> H]; auto.
Qed.

(** X4.  With the dimensions fixed, the identifier tells the period and
    the scope apart: two calls with dates from the year 1000 on that
    return the same identifier have the same end date, the same start
    date (or both none) and the same consolidation flag, whatever their
    entities. *)
Theorem context_id_determines_period_and_scope :
  forall deps name identifier name' identifier' period_end period_start c
         period_end' period_start' c' dimensions,
    date_in_range period_end -> date_in_range period_end' ->
    (forall start, period_start = Some start -> date_in_range start) ->
    (forall start, period_start' = Some start -> date_in_range start) ->
    descriptor_id (create_context_info deps name identifier period_end
                     period_start c dimensions)
    = descriptor_id (create_context_info deps name' identifier' period_end'
                       period_start' c' dimensions) ->
    period_end = period_end' /\ period_start = period_start' /\ c = c'.
Proof.
  intros deps name identifier name' identifier' period_end period_start c
    period_end' period_start' c' dimensions Hend Hend' Hstart Hstart'.
  rewrite !create_context_info_id. intros [= H].
  exact (context_id_period_scope_inj _ _ _ _ _ _ _ Hend Hend' Hstart
           Hstart' H).
Qed.

Lemma context_id_determines_period_and_scope_witness :
  (Sample.end_2023 = Sample.end_2023
   /\ Some Sample.start_2023 = Some Sample.start_2023 /\ true = true)
  /\ descriptor_id (create_context_info Sample.registry "Acme Pte Ltd"
                      "201912345A" Sample.end_2023 (Some Sample.start_2023)
                      true None)
     <> descriptor_id (create_context_info Sample.registry "Acme Pte Ltd"
                         "201912345A" (mkDate 2022 12 31)
                         (Some Sample.start_2023) true None).
Proof.
  assert (Hrange : forall y m d,
            1000 <= y -> (Z.of_nat y <= 9999)%Z -> m <= 12 -> d <= 31 ->
            date_in_range (mkDate y m d)).
  { intros y m d Hlo Hy Hm Hd. repeat split; assumption. }
  split.
  - apply (context_id_determines_period_and_scope Sample.registry
             "Acme Pte Ltd" "201912345A" "Globex Pte Ltd" "202054321B"
             Sample.end_2023 (Some Sample.start_2023) true
             Sample.end_2023 (Some Sample.start_2023) true None).
    + apply Hrange; lia.
    + apply Hrange; lia.
    + intros start [= <-]. apply Hrange; lia.
    + intros start [= <-]. apply Hrange; lia.
    + reflexivity.
  - intros H.
    apply (context_id_determines_period_and_scope Sample.registry
             "Acme Pte Ltd" "201912345A" "Acme Pte Ltd" "201912345A"
             Sample.end_2023 (Some Sample.start_2023) true
             (mkDate 2022 12 31) (Some Sample.start_2023) true None)
      in H as [H _].
    + discriminate H.
    + apply Hrange; lia.
    + apply Hrange; lia.
    + intros start [= <-]. apply Hrange; lia.
    + intros start [= <-]. apply Hrange; lia.
Defined.

Lemma sorted_items_pair (k v k2 v2 : string) :
  String.le k k2 -> k <> k2 ->
  sorted_items [(k, v); (k2, v2)] = [(k, v); (k2, v2)].
Proof.
  intros Hle Hne. symmetry. apply sorted_items_unique; [|reflexivity].
  repeat constructor; simpl; [exact Hle | contradiction].
Qed.

Lemma sorted_items_single (item : string * string) :
  sorted_items [item] = [item].
Proof.
  symmetry. apply sorted_items_unique; [|reflexivity].
  repeat constructor.
Qed.

(** X5.  The separators of the dimension part are not escaped, so
    different dimension mappings can share an identifier: two dimensions
    [k] and [k2], in that order of names, give the identifier of the
    single dimension [k] whose value spells out the rest. *)
Theorem context_id_dimension_collision :
  forall deps name identifier period_end period_start c k v k2 v2,
    String.le k k2 -> k <> k2 ->
    descriptor_id (create_context_info deps name identifier period_end
                     period_start c (Some [(k, v); (k2, v2)]))
    = descriptor_id (create_context_info deps name identifier period_end
                       period_start c
                       (Some [(k, v +:+ "_" +:+ k2 +:+ "-" +:+ v2)])).
Proof.
  intros deps name identifier period_end period_start c k v k2 v2 Hle Hne.
  rewrite !create_context_info_id, !context_id_dims.
  rewrite (sorted_items_pair k v k2 v2 Hle Hne), sorted_items_single.
  simpl. rewrite !StrFacts.append_assoc. reflexivity.
Qed.

Lemma context_id_dimension_collision_witness :
  [("region", "apac"); ("segment", "retail")]
  <> [("region", "apac_segment-retail")] /\
  descriptor_id (create_context_info Sample.registry "Acme Pte Ltd"
                   "201912345A" Sample.end_2023 None false
                   (Some [("region", "apac"); ("segment", "retail")]))
  = descriptor_id (create_context_info Sample.registry "Acme Pte Ltd"
                     "201912345A" Sample.end_2023 None false
                     (Some [("region", "apac_segment-retail")])).
Proof.
  split; [discriminate|].
  apply (context_id_dimension_collision Sample.registry "Acme Pte Ltd"
           "201912345A" Sample.end_2023 None false
           "region" "apac" "segment" "retail").
  - reflexivity.
  - discriminate.
Defined.

(** ** The section tagger *)

Section section_tagger_more.
Context {python_lower : Str.Lower}.

Lemma keys_set_eq {V : Type} (k : string) (v : V) (d : Dict.t V) :
  Dict.keys (Dict.set k v d)
  = if Dict.mem k d then Dict.keys d else Dict.keys d ++ [k].
Proof.
  unfold Dict.mem. induction d as [|[k0 v0] d IH]; simpl; [reflexivity|].
  destruct (String.eqb_spec k k0) as [->|Hne]; simpl; [reflexivity|].
  rewrite IH. destruct (Dict.get k d); reflexivity.
Qed.

Lemma mem_set_ne {V : Type} (k k' : string) (v : V) (d : Dict.t V) :
  k <> k' -> Dict.mem k' (Dict.set k v d) = Dict.mem k' d.
Proof.
  intros Hne. unfold Dict.mem. rewrite DictFacts.get_set_ne by exact Hne.
  reflexivity.
Qed.

Lemma scalar_field_names_cons (k : string) (v : pyvalue)
    (fields : Dict.t pyvalue) :
  scalar_field_names ((k, v) :: fields)
  = if is_list_or_dict v then scalar_field_names fields
    else k :: scalar_field_names fields.
Proof.
  unfold scalar_field_names, Dict.items. simpl.
  destruct (is_list_or_dict v); reflexivity.
Qed.

Lemma scalar_field_names_In (k : string) (fields : Dict.t pyvalue) :
  In k (scalar_field_names fields) <-> has_scalar_field k fields.
Proof.
  unfold scalar_field_names, has_scalar_field. rewrite in_map_iff. split.
  - intros ([k' v] & <- & Hin). apply filter_In in Hin as [Hin Hv].
    exists v. split; [exact Hin|]. simpl in Hv.
    destruct (is_list_or_dict v); [discriminate Hv | reflexivity].
  - intros (v & Hin & Hv). exists (k, v). split; [reflexivity|].
    apply filter_In. split; [exact Hin|]. simpl. rewrite Hv. reflexivity.
Qed.

(** The keys after the loop: those before it, then the names of the
    scalar fields that were not keys yet, in their order. *)
Lemma tag_fields_keys_eq deps (fields : list (string * pyvalue))
    (acc : Dict.t pyvalue) :
  List.NoDup (map fst fields) ->
  Dict.keys (fold_left (tag_field deps) fields acc)
  = Dict.keys acc
    ++ List.filter (fun k => negb (Dict.mem k acc))
         (scalar_field_names fields).
Proof.
  revert acc. induction fields as [|[k0 v0] fields IH]; intros acc Hnd.
  - simpl. rewrite app_nil_r. reflexivity.
  - simpl in Hnd. apply NoDup_cons_iff in Hnd as [Hk0 Hnd].
    simpl fold_left. rewrite scalar_field_names_cons.
    destruct (is_list_or_dict v0) eqn:Hv0; [apply IH, Hnd|].
    rewrite (IH _ Hnd), keys_set_eq.
    rewrite (filter_ext_in
               (fun k => negb (Dict.mem k (Dict.set k0
                                 (tagged_element deps k0 v0) acc)))
               (fun k => negb (Dict.mem k acc))).
    + simpl. destruct (Dict.mem k0 acc); simpl; [reflexivity|].
      rewrite <- app_assoc. reflexivity.
    + intros k Hk. rewrite mem_set_ne; [reflexivity|].
      intros ->. apply Hk0. apply scalar_field_names_In in Hk as (v & Hin & _).
      apply (in_map fst) in Hin. exact Hin.
Qed.

(** X6.  The output of [tag_statement_section] has the key "meta_tags"
    first and then the name of every scalar field once, in the order of
    [section_data]; and the element of each scalar field carries the
    field's value unchanged. *)
Theorem tagged_section_keys_and_values :
  forall deps section_name section_data,
    Dict.wf section_data ->
    let output := tag_statement_section deps section_name section_data in
    Dict.keys output
    = "meta_tags"
      :: List.filter (fun k => negb (String.eqb k "meta_tags"))
           (scalar_field_names section_data)
    /\ (forall k v,
          In (k, v) (Dict.items section_data) ->
          is_list_or_dict v = false ->
          exists tags,
            Dict.get k output
            = Some (PDict [("value", v); ("tags", PList tags)])).
Proof.
  intros deps section_name section_data Hwf output. subst output. split.
  - unfold tag_statement_section. rewrite tag_fields_keys_eq by exact Hwf.
    simpl. f_equal. apply filter_ext. intros k. unfold Dict.mem. simpl.
    destruct (String.eqb k "meta_tags"); reflexivity.
  - intros k v Hin Hv. eexists.
    apply (tag_statement_section_scalar deps section_name _ _ _ Hwf Hin Hv).
Qed.

Lemma meta_tags_untouched deps section_name section_data :
  ~ has_scalar_field "meta_tags" section_data ->
  Dict.get "meta_tags" (tag_statement_section deps section_name section_data)
  = Some (PList (section_meta_tags deps section_name)).
Proof.
  intros Hno. unfold tag_statement_section.
  rewrite tag_fields_get_other; [reflexivity|].
  intros v Hin. destruct (is_list_or_dict v) eqn:E; [reflexivity|].
  exfalso. apply Hno. exists v. auto.
Qed.

Lemma filter_sublist {A : Type} (f : A -> bool) (l : list A) :
  sublist (List.filter f l) l.
Proof.
  induction l as [|x l IH]; simpl; [constructor|].
  destruct (f x); constructor; exact IH.
Qed.

(** X7.  When [section_data] has no scalar field named "meta_tags", the
    output holds under "meta_tags" the section-level tags selected from
    [statement_tags], in catalogue order: exactly the tags whose element
    name contains the section name, ignoring case. *)
Theorem meta_tags_are_the_matching_statement_tags :
  forall deps section_name section_data,
    ~ has_scalar_field "meta_tags" section_data ->
    exists selected,
      Dict.get "meta_tags"
        (tag_statement_section deps section_name section_data)
      = Some (PList (map tag_dict selected)) /\
      sublist selected (statement_tags deps) /\
      (forall tag,
         In tag selected
         <-> In tag (statement_tags deps) /\
             Str.occurs_in (Str.lower section_name)
                           (Str.lower (element_name tag))).
Proof.
  intros deps section_name section_data Hno. eexists. split_and!.
  - apply meta_tags_untouched, Hno.
  - apply filter_sublist.
  - intros tag. rewrite filter_In, StrFacts.str_in_spec. reflexivity.
Qed.

(** X8.  The empty section name is contained in every element name: with
    no scalar field named "meta_tags", the output holds every tag of
    [statement_tags] under "meta_tags". *)
Theorem empty_section_name_selects_all_tags :
  forall deps section_data,
    ~ has_scalar_field "meta_tags" section_data ->
    Dict.get "meta_tags" (tag_statement_section deps "" section_data)
    = Some (PList (map tag_dict (statement_tags deps))).
Proof.
  intros deps section_data Hno. rewrite meta_tags_untouched by exact Hno.
  unfold section_meta_tags. do 3 f_equal.
  induction (statement_tags deps) as [|tag tags IH]; [reflexivity|].
  cbn [List.filter].
  rewrite IH, Str.lower_empty, StrFacts.str_in_unfold. reflexivity.
Qed.

End section_tagger_more.

(** ** The validator *)

Lemma lacks_tags_spec (field_data : pyvalue) :
  lacks_tags field_data = true <-> untagged field_data.
Proof.
  unfold untagged. split.
  - destruct field_data as [| | | | |e]; try discriminate. simpl.
    destruct (Dict.get "tags" e) as [tags|] eqn:E; [|discriminate].
    intros H. exists e, tags. split_and!; [reflexivity | exact E|].
    destruct (truthy tags); [discriminate H | reflexivity].
  - intros (e & tags & -> & Hget & Hfalse). simpl.
    rewrite Hget, Hfalse. reflexivity.
Qed.

Lemma missing_tags_issue_inj s f s' f' :
  missing_tags_issue s f = missing_tags_issue s' f' -> s = s' /\ f = f'.
Proof. intros [= Hs Hf _]. auto. Qed.

Lemma field_issues_In section_name fields issue :
  In issue (field_issues section_name fields)
  <-> exists f fd,
        In (f, fd) fields /\ untagged fd
        /\ issue = missing_tags_issue section_name f.
Proof.
  unfold field_issues. rewrite in_flat_map. split.
  - intros ([f fd] & Hin & Hissue).
    destruct (lacks_tags fd) eqn:E; [|destruct Hissue].
    destruct Hissue as [<- | []]. exists f, fd.
    split_and!; [exact Hin | apply lacks_tags_spec, E | reflexivity].
  - intros (f & fd & Hin & Hun & ->). exists (f, fd). split; [exact Hin|].
    apply lacks_tags_spec in Hun. rewrite Hun. left; reflexivity.
Qed.

Lemma section_issues_In sections issue :
  In issue (section_issues sections)
  <-> exists s d f fd,
        In (s, PDict d) sections /\ In (f, fd) d /\ untagged fd
        /\ issue = missing_tags_issue s f.
Proof.
  unfold section_issues. rewrite in_flat_map. split.
  - intros ([s sd] & Hin & Hissue). destruct sd; try destruct Hissue.
    apply field_issues_In in Hissue as (f & fd & Hf & Hun & ->).
    exists s, d, f, fd. auto.
  - intros (s & d & f & fd & Hin & Hf & Hun & ->).
    exists (s, PDict d). split; [exact Hin|].
    apply field_issues_In. exists f, fd. auto.
Qed.

(** X9.  [validate_tagged_data] reports a missing_tags issue for a
    section and a field exactly when that section is a dictionary in
    which the field is a dictionary whose "tags" entry is empty or
    otherwise false ([None], [0], [""]); every missing_tags issue it
    reports is of that kind.  Fields that are no dictionaries or have no
    "tags" entry are never reported. *)
Theorem missing_tags_iff_untagged :
  forall deps tagged_data,
    let issues := validate_tagged_data deps tagged_data in
    (forall s f,
       In (missing_tags_issue s f) issues
       <-> exists d fd,
             In (s, PDict d) (Dict.items tagged_data) /\ In (f, fd) d
             /\ untagged fd) /\
    (forall issue,
       In issue issues -> Dict.get "type" issue = Some "missing_tags" ->
       exists s d f fd,
         issue = missing_tags_issue s f /\
         In (s, PDict d) (Dict.items tagged_data) /\ In (f, fd) d
         /\ untagged fd).
Proof.
  intros deps tagged_data issues. subst issues.
  rewrite validate_tagged_data_issues. split.
  - intros s f. rewrite in_app_iff. split.
    + intros [Hin | Hin].
      * apply mandatory_issues_In in Hin as (f' & _ & _ & Heq).
        discriminate Heq.
      * apply section_issues_In in Hin as (s' & d & f' & fd & Hs & Hf & Hun
                                           & Heq).
        apply missing_tags_issue_inj in Heq as [-> ->]. eauto.
    + intros (d & fd & Hs & Hf & Hun). right. apply section_issues_In.
      exists s, d, f, fd. auto.
  - intros issue Hin Htype. apply in_app_iff in Hin as [Hin | Hin].
    + apply mandatory_issues_In in Hin as (f' & _ & _ & ->).
      discriminate Htype.
    + apply section_issues_In in Hin as (s & d & f & fd & Hs & Hf & Hun & ->).
      exists s, d, f, fd. auto.
Qed.

(** X10.  The issues come in two runs: first the missing_mandatory_field
    issues, then the missing_tags issues. *)
Theorem issues_mandatory_first :
  forall deps tagged_data,
    exists mandatory tags,
      validate_tagged_data deps tagged_data = mandatory ++ tags /\
      (forall issue,
         In issue mandatory ->
         Dict.get "type" issue = Some "missing_mandatory_field") /\
      (forall issue,
         In issue tags -> Dict.get "type" issue = Some "missing_tags").
Proof.
  intros deps tagged_data.
  exists (mandatory_issues tagged_data (Dict.items (mandatory_fields deps))),
         (section_issues (Dict.items tagged_data)).
  split_and!.
  - apply validate_tagged_data_issues.
  - intros issue Hin. apply mandatory_issues_In in Hin as (f & _ & _ & ->).
    reflexivity.
  - apply section_issues_type.
Qed.

Lemma nil_iff_no_element {A : Type} (l : list A) :
  l = [] <-> forall x, ~ In x l.
Proof.
  split; [intros -> x [] |].
  destruct l as [|x l]; [reflexivity|].
  intros H. exfalso. apply (H x). left; reflexivity.
Qed.

(** X11.  The issue list is empty exactly when every field flagged
    mandatory is a key of some section and no field of any section has an
    empty or false "tags" entry. *)
Theorem no_issue_iff_complete :
  forall deps tagged_data,
    validate_tagged_data deps tagged_data = []
    <-> (forall f,
           In (f, true) (Dict.items (mandatory_fields deps)) ->
           ~ absent_from_every_section f tagged_data) /\
        (forall s d f fd,
           In (s, PDict d) (Dict.items tagged_data) -> In (f, fd) d ->
           ~ untagged fd).
Proof.
  intros deps tagged_data. rewrite validate_tagged_data_issues.
  rewrite app_nil, !nil_iff_no_element. split.
  - intros [Hmand Htags]. split.
    + intros f Hf Habsent. apply (Hmand (missing_mandatory_issue f)).
      apply mandatory_issues_In. exists f.
      split_and!; [exact Hf | apply field_found_false, Habsent | reflexivity].
    + intros s d f fd Hs Hf Hun. apply (Htags (missing_tags_issue s f)).
      apply section_issues_In. exists s, d, f, fd. auto.
  - intros [Hmand Htags]. split.
    + intros issue Hin. apply mandatory_issues_In in Hin as (f & Hf & Hfound & _).
      apply (Hmand f Hf). apply field_found_false, Hfound.
    + intros issue Hin.
      apply section_issues_In in Hin as (s & d & f & fd & Hs & Hf & Hun & _).
      exact (Htags s d f fd Hs Hf Hun).
Qed.

(** X12.  For the empty document every field flagged mandatory is
    reported missing, once, in the order of [mandatory_fields], and
    nothing else is reported. *)
Theorem empty_document_reports_all_mandatory :
  forall deps,
    validate_tagged_data deps []
    = map missing_mandatory_issue (mandatory_names deps).
Proof.
  intros deps. rewrite validate_tagged_data_issues.
  change (section_issues (Dict.items [])) with (@nil (Dict.t string)).
  rewrite app_nil_r. unfold mandatory_names, mandatory_issues.
  induction (Dict.items (mandatory_fields deps)) as [|[f m] entries IH];
    [reflexivity|].
  cbn [flat_map]. rewrite IH. destruct m; reflexivity.
Qed.

Lemma mandatory_issues_ext tagged_data tagged_data' entries :
  (forall f, field_found f tagged_data = field_found f tagged_data') ->
  mandatory_issues tagged_data entries = mandatory_issues tagged_data' entries.
Proof.
  intros H. unfold mandatory_issues.
  induction entries as [|[f m] entries IH]; [reflexivity|].
  cbn [flat_map]. rewrite IH, H. reflexivity.
Qed.

(** X13.  A section whose value is no dictionary is ignored: it makes no
    mandatory field present and adds no issue, so removing it leaves the
    issue list as it is. *)
Theorem non_dict_section_ignored :
  forall deps before section_name v after,
    (forall d, v <> PDict d) ->
    validate_tagged_data deps (before ++ (section_name, v) :: after)
    = validate_tagged_data deps (before ++ after).
Proof.
  intros deps before section_name v after Hv.
  rewrite !validate_tagged_data_issues. unfold Dict.items. f_equal.
  - apply mandatory_issues_ext. intros f. unfold field_found, Dict.items.
    rewrite !existsb_app. simpl.
    destruct v; try reflexivity. exfalso. exact (Hv _ eq_refl).
  - unfold section_issues. rewrite !flat_map_app. simpl.
    destruct v; try reflexivity. exfalso. exact (Hv _ eq_refl).
Qed.

Lemma non_dict_section_ignored_witness :
  validate_tagged_data Sample.registry
    (("status", PStr "draft") :: Sample.document)
  = validate_tagged_data Sample.registry Sample.document.
Proof.
  apply (non_dict_section_ignored Sample.registry [] "status" (PStr "draft")
           Sample.document).
  discriminate.
Defined.

(** ** Tagging, then validating *)

Section tagging_then_validating.
Context {python_lower : Str.Lower}.

Lemma tag_document_In deps sections s d :
  In (s, PDict d) (tag_document deps sections)
  <-> exists data,
        In (s, data) sections /\ d = tag_statement_section deps s data.
Proof.
  unfold tag_document. rewrite in_map_iff. split.
  - intros ([s' data] & [= <- <-] & Hin). exists data. auto.
  - intros (data & Hin & ->). exists (s, data). auto.
Qed.

(** The element of a field is counted as untagged exactly when the
    registry has no tags for the field's name. *)
Lemma tagged_element_untagged deps f v :
  untagged (tagged_element deps f v)
  <-> Dict.get f (field_tags deps) = None
      \/ Dict.get f (field_tags deps) = Some [].
Proof.
  unfold untagged, tagged_element. split.
  - intros (e & tags & [= <-] & [= <-] & Hfalse).
    destruct (Dict.get f (field_tags deps)) as [[|tag entry]|];
      [auto | discriminate Hfalse | auto].
  - intros H. eexists. eexists. split_and!; [reflexivity | reflexivity|].
    destruct H as [-> | ->]; reflexivity.
Qed.

(** A scalar field's name is a key of the tagged section. *)
Lemma scalar_field_is_key deps section_name section_data f :
  has_scalar_field f section_data ->
  In f (Dict.keys (tag_statement_section deps section_name section_data)).
Proof.
  intros (v & Hin & Hv). apply in_split in Hin as (before & after & Hsplit).
  unfold tag_statement_section, Dict.items in *.
  rewrite Hsplit, fold_left_app. simpl. rewrite Hv.
  apply tag_fields_keys, DictFacts.keys_set. left; reflexivity.
Qed.

Lemma key_is_scalar_field deps section_name section_data f :
  f <> "meta_tags" ->
  In f (Dict.keys (tag_statement_section deps section_name section_data)) ->
  ~ ~ has_scalar_field f section_data.
Proof.
  intros Hf Hkey Hno. revert Hkey. apply DictFacts.get_None_iff.
  unfold tag_statement_section. rewrite tag_fields_get_other.
  - simpl. destruct (String.eqb_spec f "meta_tags"); [contradiction|].
    reflexivity.
  - intros v Hin. destruct (is_list_or_dict v) eqn:E; [reflexivity|].
    exfalso. apply Hno. exists v. auto.
Qed.

Lemma missing_mandatory_In_iff deps tagged_data f :
  Dict.get f (mandatory_fields deps) = Some true ->
  In (missing_mandatory_issue f) (validate_tagged_data deps tagged_data)
  <-> absent_from_every_section f tagged_data.
Proof.
  intros Hmandatory. rewrite validate_tagged_data_issues, in_app_iff. split.
  - intros [Hin | Hin].
    + apply mandatory_issues_In in Hin as (f' & _ & Hfound & Heq).
      apply missing_mandatory_issue_inj in Heq as ->.
      apply field_found_false, Hfound.
    + apply section_issues_type in Hin. discriminate Hin.
  - intros Habsent. left. apply mandatory_issues_In. exists f. split_and!.
    + apply DictFacts.get_Some_In, Hmandatory.
    + apply field_found_false, Habsent.
    + reflexivity.
Qed.

(** X14.  For a document assembled from the outputs of
    [tag_statement_section], the validator reports a missing_tags issue
    for a section and a field exactly when the field is a scalar field of
    that section's data and the registry has no tags under exactly that
    name (no entry, or an empty one). *)
Theorem tagged_document_missing_tags :
  forall deps sections s f,
    (forall name data, In (name, data) sections -> Dict.wf data) ->
    In (missing_tags_issue s f)
       (validate_tagged_data deps (tag_document deps sections))
    <-> exists data,
          In (s, data) sections /\ has_scalar_field f data /\
          (Dict.get f (field_tags deps) = None
           \/ Dict.get f (field_tags deps) = Some []).
Proof.
  intros deps sections s f Hwf.
  rewrite validate_tagged_data_issues, in_app_iff. split.
  - intros [Hin | Hin].
    { apply mandatory_issues_In in Hin as (f' & _ & _ & Heq).
      discriminate Heq. }
    apply section_issues_In in Hin as (s' & d & f' & fd & Hs & Hf & Hun & Heq).
    apply missing_tags_issue_inj in Heq as [<- <-].
    apply tag_document_In in Hs as (data & Hdata & ->).
    exists data. split; [exact Hdata|].
    apply tag_fields_In in Hf as [[[= <- <-] | []] | (v & Hv & Hscalar & ->)].
    + destruct Hun as (e & tags & [=] & _).
    + split; [exists v; auto | apply (tagged_element_untagged deps f v), Hun].
  - intros (data & Hdata & (v & Hv & Hscalar) & Hnone). right.
    apply section_issues_In.
    exists s, (tag_statement_section deps s data), f,
           (tagged_element deps f v).
    split_and!.
    + apply tag_document_In. exists data. auto.
    + apply DictFacts.get_Some_In.
      apply tag_statement_section_scalar; eauto.
    + apply tagged_element_untagged, Hnone.
    + reflexivity.
Qed.

(** X15.  For a document assembled from the outputs of
    [tag_statement_section], a mandatory field (other than "meta_tags")
    is reported missing exactly when no section's data has it as a scalar
    field: a mandatory field that only occurs with a list or a dictionary
    as its value is dropped by the tagger and reported missing. *)
Theorem tagged_document_missing_mandatory :
  forall deps sections f,
    f <> "meta_tags" ->
    Dict.get f (mandatory_fields deps) = Some true ->
    In (missing_mandatory_issue f)
       (validate_tagged_data deps (tag_document deps sections))
    <-> forall s data, In (s, data) sections -> ~ has_scalar_field f data.
Proof.
  intros deps sections f Hf Hmandatory.
  rewrite (missing_mandatory_In_iff deps _ f Hmandatory).
  unfold absent_from_every_section. split.
  - intros Habsent s data Hin Hscalar.
    apply (Habsent s (tag_statement_section deps s data)).
    + apply tag_document_In. exists data. auto.
    + apply scalar_field_is_key, Hscalar.
  - intros Hno s d Hin Hkey.
    apply tag_document_In in Hin as (data & Hdata & ->).
    exact (key_is_scalar_field deps s data f Hf Hkey (Hno s data Hdata)).
Qed.

End tagging_then_validating.

(** * The properties at sample inputs *)

(** The sample inputs are ASCII strings, on which [s.lower()] is the
    character-wise map of [A]..[Z] to [a]..[z]. *)
#[local] Existing Instance Str.ascii_lower.

Lemma exact_match_wins_witness :
  let result :=
    apply_tags_to_element Sample.registry2 "Revenue" (PInt 1200)
      "income_statement" false in
  fuzzy_match "Revenue" "TotalRevenue" /\
  res_tags result = [tag_dict Sample.revenue] /\
  hd_error (res_messages result) = Some "Found exact tag match for Revenue" /\
  (forall field_name,
     ~ In ("Using similar tag: " +:+ field_name) (res_messages result)).
Proof.
  split.
  - apply similar_spec. reflexivity.
  - apply (exact_match_wins Sample.registry2 "Revenue" (PInt 1200)
             "income_statement" false [Sample.revenue]).
    reflexivity.
Defined.

Lemma fuzzy_fallback_first_match_witness :
  res_tags (apply_tags_to_element Sample.registry2 "revenue" (PInt 1200)
              "income_statement" false)
  = [tag_dict Sample.total_revenue] /\
  In "Using similar tag: TotalRevenue"
     (res_messages (apply_tags_to_element Sample.registry2 "revenue"
                      (PInt 1200) "income_statement" false)) /\
  res_tags (apply_tags_to_element Sample.registry2 "Goodwill" (PInt 7)
              "balance_sheet" true) = [] /\
  res_messages (apply_tags_to_element Sample.registry2 "Goodwill" (PInt 7)
                  "balance_sheet" true) <> [].
Proof.
  destruct (fuzzy_fallback_first_match Sample.registry2 "revenue"
              (PInt 1200) "income_statement" false eq_refl) as [Hfirst _].
  destruct (fuzzy_fallback_first_match Sample.registry2 "Goodwill"
              (PInt 7) "balance_sheet" true eq_refl) as [_ Hnone].
  split; [|split].
  - apply (Hfirst [] "TotalRevenue" [Sample.total_revenue]
             [("Revenue", [Sample.revenue])] eq_refl).
    + intros k e [].
    + apply similar_spec. reflexivity.
  - apply (Hfirst [] "TotalRevenue" [Sample.total_revenue]
             [("Revenue", [Sample.revenue])] eq_refl).
    + intros k e [].
    + apply similar_spec. reflexivity.
  - apply Hnone. intros k e Hin. apply similar_false.
    simpl in Hin. destruct Hin as [[= <- <-] | [[= <- <-] | []]]; reflexivity.
Defined.

Lemma section_tags_exact_only_witness :
  element_tags
    (tag_statement_section Sample.registry "incomeStatement"
       [("Revenue", PInt 1200); ("notes", PList [])]) "Revenue"
  = Some (res_tags (apply_tags_to_element Sample.registry "Revenue"
                      (PInt 1200) "incomeStatement" false)).
Proof.
  refine (proj1 (section_tags_exact_only Sample.registry "incomeStatement"
                   [("Revenue", PInt 1200); ("notes", PList [])]
                   "Revenue" (PInt 1200) "incomeStatement" false _ _ _)
                [Sample.revenue] _).
  - repeat constructor; simpl; intuition discriminate.
  - simpl. left; reflexivity.
  - reflexivity.
  - reflexivity.
Defined.

(** C2 fails as stated: for the scalar field "revenue" and a registry
    whose only key is "Revenue", the resolver falls back to the tags of
    "Revenue", and the section tagger attaches no tag. *)
Lemma section_tagger_has_no_fuzzy_fallback :
  In ("revenue", PInt 1200) [("revenue", PInt 1200)] /\
  is_list_or_dict (PInt 1200) = false /\
  element_tags
    (tag_statement_section Sample.registry "incomeStatement"
       [("revenue", PInt 1200)]) "revenue"
  = Some [] /\
  res_tags (apply_tags_to_element Sample.registry "revenue" (PInt 1200)
              "incomeStatement" false)
  = [tag_dict Sample.revenue] /\
  element_tags
    (tag_statement_section Sample.registry "incomeStatement"
       [("revenue", PInt 1200)]) "revenue"
  <> Some (res_tags (apply_tags_to_element Sample.registry "revenue"
                       (PInt 1200) "incomeStatement" false)).
Proof.
  split_and!; try reflexivity; [left; reflexivity | discriminate].
Qed.

Lemma nested_fields_skipped_witness :
  ~ In "segments"
      (Dict.keys
         (tag_statement_section Sample.registry "incomeStatement"
            [("Revenue", PInt 1200);
             ("segments", PDict [("retail", PInt 700)]);
             ("notes", PList [PStr "audited"])])).
Proof.
  apply (nested_fields_skipped Sample.registry "incomeStatement"
           [("Revenue", PInt 1200);
            ("segments", PDict [("retail", PInt 700)]);
            ("notes", PList [PStr "audited"])]
           "segments" (PDict [("retail", PInt 700)])).
  - repeat constructor; simpl; intuition discriminate.
  - simpl. right; left; reflexivity.
  - reflexivity.
  - discriminate.
Defined.

(** C9 fails as stated: the key "meta_tags" of [section_data] holds a
    list, and "meta_tags" is a key of the output. *)
Lemma nested_meta_tags_key_appears :
  In ("meta_tags", PList [PStr "draft"])
     [("meta_tags", PList [PStr "draft"]); ("Revenue", PInt 1200)] /\
  is_list_or_dict (PList [PStr "draft"]) = true /\
  In "meta_tags"
     (Dict.keys
        (tag_statement_section Sample.registry "incomeStatement"
           [("meta_tags", PList [PStr "draft"]); ("Revenue", PInt 1200)])).
Proof.
  split_and!; [left; reflexivity | reflexivity | left; reflexivity].
Qed.

Lemma meta_tags_key_and_overwrite_witness :
  let output :=
    tag_statement_section Sample.registry "IncomeStatement"
      [("Revenue", PInt 1200); ("meta_tags", PStr "v2")] in
  section_meta_tags Sample.registry "IncomeStatement"
  = [tag_dict Sample.income_abstract] /\
  (exists tags,
     Dict.get "meta_tags" output
     = Some (PDict [("value", PStr "v2"); ("tags", PList tags)])) /\
  (forall k x,
     In (k, x) output ->
     (exists value tags,
        In (k, value) [("Revenue", PInt 1200); ("meta_tags", PStr "v2")] /\
        x = PDict [("value", value); ("tags", PList tags)]) /\
     x <> PList (section_meta_tags Sample.registry "IncomeStatement")).
Proof.
  split; [reflexivity|].
  apply (proj2 (meta_tags_key_and_overwrite Sample.registry "IncomeStatement"
                  [("Revenue", PInt 1200); ("meta_tags", PStr "v2")])
               (PStr "v2")).
  - repeat constructor; simpl; intuition discriminate.
  - simpl. right; left; reflexivity.
  - reflexivity.
Defined.

Lemma empty_name_takes_first_entry_witness :
  res_tags (apply_tags_to_element Sample.registry2 "" PNone "filing" true)
  = [tag_dict Sample.total_revenue] /\
  In "Using similar tag: TotalRevenue"
     (res_messages
        (apply_tags_to_element Sample.registry2 "" PNone "filing" true)).
Proof.
  apply (empty_name_takes_first_entry Sample.registry2 PNone "filing" true
           "TotalRevenue" [Sample.total_revenue]
           [("Revenue", [Sample.revenue])]); reflexivity.
Defined.

Lemma tagged_section_keys_and_values_witness :
  Dict.keys
    (tag_statement_section Sample.registry "incomeStatement"
       [("Revenue", PInt 1200); ("segments", PList []);
        ("meta_tags", PStr "v2"); ("currency", PStr "SGD")])
  = ["meta_tags"; "Revenue"; "currency"].
Proof.
  assert (Hwf : Dict.wf [("Revenue", PInt 1200); ("segments", PList []);
                         ("meta_tags", PStr "v2"); ("currency", PStr "SGD")]).
  { repeat constructor; simpl; intuition discriminate. }
  exact (proj1 (tagged_section_keys_and_values Sample.registry
                  "incomeStatement" _ Hwf)).
Defined.

Lemma meta_tags_are_the_matching_statement_tags_witness :
  exists selected,
    Dict.get "meta_tags"
      (tag_statement_section Sample.registry "incomestatement"
         [("Revenue", PInt 1200); ("meta_tags", PList [])])
    = Some (PList (map tag_dict selected)) /\
    sublist selected (statement_tags Sample.registry) /\
    (forall tag,
       In tag selected
       <-> In tag (statement_tags Sample.registry) /\
           Str.occurs_in (Str.lower "incomestatement")
                         (Str.lower (element_name tag))).
Proof.
  apply (meta_tags_are_the_matching_statement_tags Sample.registry
           "incomestatement"
           [("Revenue", PInt 1200); ("meta_tags", PList [])]).
  intros (v & Hin & Hv). simpl in Hin.
  destruct Hin as [[= <-] | [[= <-] | []]]. discriminate Hv.
Defined.

Lemma empty_section_name_selects_all_tags_witness :
  Dict.get "meta_tags"
    (tag_statement_section Sample.registry "" [("Revenue", PInt 1200)])
  = Some (PList [tag_dict Sample.income_abstract]).
Proof.
  apply (empty_section_name_selects_all_tags Sample.registry
           [("Revenue", PInt 1200)]).
  intros (v & Hin & Hv). simpl in Hin.
  destruct Hin as [[= <-] | []].
Defined.

Lemma tagged_document_missing_tags_witness :
  In (missing_tags_issue "incomeStatement" "revenue")
     (validate_tagged_data Sample.registry
        (tag_document Sample.registry
           [("incomeStatement",
               [("Revenue", PInt 1200); ("revenue", PInt 1100)])])).
Proof.
  apply (tagged_document_missing_tags Sample.registry
           [("incomeStatement",
               [("Revenue", PInt 1200); ("revenue", PInt 1100)])]
           "incomeStatement" "revenue").
  - intros name data [[= <- <-] | []].
    repeat constructor; simpl; intuition discriminate.
  - exists [("Revenue", PInt 1200); ("revenue", PInt 1100)]. split_and!.
    + left; reflexivity.
    + exists (PInt 1100). split; [right; left; reflexivity | reflexivity].
    + left; reflexivity.
Defined.

Lemma tagged_document_missing_mandatory_witness :
  In (missing_mandatory_issue "Revenue")
     (validate_tagged_data Sample.registry
        (tag_document Sample.registry
           [("incomeStatement",
               [("Revenue", PDict [("2023", PInt 1200)]);
                ("currency", PStr "SGD")])])).
Proof.
  apply (tagged_document_missing_mandatory Sample.registry
           [("incomeStatement",
               [("Revenue", PDict [("2023", PInt 1200)]);
                ("currency", PStr "SGD")])] "Revenue").
  - discriminate.
  - reflexivity.
  - intros s data [[= <- <-] | []] (v & Hin & Hv). simpl in Hin.
    destruct Hin as [[= <-] | [[=] | []]]. discriminate Hv.
Defined.
